(** * Perfume 3D Shop API: the request-handling layer of [main.py]

    A shallow embedding of [src/main.py]: the [ProductIn] schema and
    its validation, the record shaper [serialize_doc], and the route
    handlers [list_products], [create_product], [get_product],
    [seed_products] and [test_database], together with the properties
    the specification states about them.

    Python values are modelled as follows.
    - [int] is [Z] (unbounded).
    - [float] is the binary64 type [float], with its infinities and NaN
      and the comparisons of the machine.
    - [str] is [string], its characters written in UTF-8; the length and
      the slices of a [str] count characters, not bytes.
    - [bytes] is [list byte].
    - [dict] with string keys is [gmap string value].
    - [None] where a value is optional is [option]. *)

From Stdlib Require Import ZArith String Ascii List Bool.
From Stdlib Require Import Strings.Byte.
From Stdlib Require Import Floats.PrimFloat Floats.SpecFloat Floats.FloatOps.
From stdpp Require Import base option list gmap strings.

Local Open Scope Z_scope.
Local Open Scope string_scope.

(** ** Strings

    A character of a [str] takes one to four bytes in UTF-8; every byte
    after the first of a character has the form [10xxxxxx]. *)

Definition is_continuation (c : ascii) : bool :=
  let n := N_of_ascii c in (128 <=? n)%N && (n <? 192)%N.

(** [len(text)] *)
Fixpoint str_len (text : string) : nat :=
  match text with
  | EmptyString => O
  | String c rest => if is_continuation c then str_len rest else S (str_len rest)
  end.

(** [text[:n]]: the first [n] characters *)
Fixpoint str_prefix (n : nat) (text : string) : string :=
  match text with
  | EmptyString => EmptyString
  | String c rest =>
      if is_continuation c then String c (str_prefix n rest)
      else
        match n with
        | O => EmptyString
        | S m => String c (str_prefix m rest)
        end
  end.

(** ** Native identifiers

    A [bson.ObjectId] wraps a [bytes] object, twelve bytes for every
    identifier the store assigns.  [ObjectId(text)] takes any [str] of 24
    characters that [bytes.fromhex] reads, and [str(oid)] is the
    hexadecimal form of the bytes, in lower case. *)

Record ObjectId := mkObjectId { oid_binary : list byte }.

#[global] Instance byte_eq_dec : EqDecision byte := Byte.byte_eq_dec.

#[global] Instance ObjectId_eq_dec : EqDecision ObjectId.
Proof. solve_decision. Defined.

Definition hex_value (c : ascii) : option N :=
  let n := N_of_ascii c in
  if (48 <=? n)%N && (n <=? 57)%N then Some (n - 48)%N
  else if (97 <=? n)%N && (n <=? 102)%N then Some (n - 87)%N
  else if (65 <=? n)%N && (n <=? 70)%N then Some (n - 55)%N
  else None.

(** ASCII whitespace: space, tab, line feed, vertical tab, form feed,
    carriage return *)
Definition is_space (c : ascii) : bool :=
  let n := N_of_ascii c in
  (n =? 32)%N || ((9 <=? n)%N && (n <=? 13)%N).

(** [bytes.fromhex(text)]: two hexadecimal digits for every byte, of
    either case; whitespace is skipped before a byte, not between its two
    digits.  [None] stands for [ValueError]. *)
Fixpoint fromhex (text : string) : option (list byte) :=
  match text with
  | EmptyString => Some []
  | String c rest =>
      if is_space c then fromhex rest
      else
        match hex_value c, rest with
        | Some top, String c' rest' =>
            match hex_value c' with
            | Some bot =>
                match Byte.of_N (top * 16 + bot), fromhex rest' with
                | Some b, Some bytes => Some (b :: bytes)
                | _, _ => None
                end
            | None => None
            end
        | _, _ => None
        end
  end.

(** [ObjectId(product_id)] for a [str] argument: [None] stands for the
    [InvalidId] exception. *)
Definition ObjectId_of_str (text : string) : option ObjectId :=
  if (str_len text =? 24)%nat
  then mkObjectId <$> fromhex text
  else None.

Definition hex_digit (d : N) : ascii :=
  if (d <? 10)%N then ascii_of_N (48 + d) else ascii_of_N (87 + d).

(** [binascii.hexlify(data)] *)
Fixpoint hexlify (data : list byte) : string :=
  match data with
  | [] => EmptyString
  | b :: rest =>
      String (hex_digit (Byte.to_N b / 16)%N)
        (String (hex_digit (Byte.to_N b mod 16)%N) (hexlify rest))
  end.

(** [str(oid)] *)
Definition ObjectId_str (oid : ObjectId) : string :=
  hexlify (oid_binary oid).

(** ** Values and documents *)

#[warnings="-register-all"]
Inductive value :=
  | VNone
  | VBool (b : bool)
  | VInt (z : Z)
  | VFloat (x : float)
  | VStr (s : string)
  | VObjectId (oid : ObjectId)
  | VList (items : list value).

Abbreviation dict := (gmap string value).

(** [isinstance(v, ObjectId)] *)
Definition isinstance_ObjectId (v : value) : option ObjectId :=
  match v with
  | VObjectId oid => Some oid
  | _ => None
  end.

(** ** Schemas: [ProductIn]

    A create payload is the object of the request body as [json.loads]
    gives it: a dictionary from field names to JSON values, a number
    being an [int] or a [float]. *)

#[warnings="-register-all"]
Inductive json :=
  | JNull
  | JBool (b : bool)
  | JInt (z : Z)
  | JFloat (x : float)
  | JStr (s : string)
  | JList (items : list json)
  | JObject (fields : list (string * json)).

Abbreviation Payload := (gmap string json).

Record ProductIn := mkProductIn {
  title : string;
  description : option string;
  price : float;
  category : string;
  in_stock : bool;
  image : option string;
  rating : option float;
  notes : option (list string)
}.

(** The validator of a field converts a value of another type than the
    declared one where it can.  The conversions of a text or a boolean
    to a number, and of anything to a boolean, are the validation
    library's; they are taken as they come. *)
Record Lax := mkLax {
  str_to_float : string -> option float;
  bool_to_float : bool -> option float;
  to_bool : json -> option bool
}.

(** [float(z)]: the nearest binary64 value; [None] stands for the
    [OverflowError] of an integer beyond the range. *)
Definition float_of_int (z : Z) : option float :=
  match binary_normalize prec emax z 0 false with
  | S754_infinity _ => None
  | x => Some (SF2Prim x)
  end.

(** A field declared [str] takes a text only. *)
Definition as_str (v : json) : option string :=
  match v with
  | JStr s => Some s
  | _ => None
  end.

(** A field declared [float] takes a number, and what converts to one. *)
Definition as_float (lax : Lax) (v : json) : option float :=
  match v with
  | JFloat x => Some x
  | JInt z => float_of_int z
  | JStr s => str_to_float lax s
  | JBool b => bool_to_float lax b
  | _ => None
  end.

(** A field declared [bool] takes a boolean, and what converts to one. *)
Definition as_bool (lax : Lax) (v : json) : option bool :=
  match v with
  | JBool b => Some b
  | JNull => None
  | _ => to_bool lax v
  end.

(** A field declared [List[str]] takes an array of texts. *)
Definition as_str_list (v : json) : option (list string) :=
  match v with
  | JList items => mapM as_str items
  | _ => None
  end.

(** [Optional[...]]: [null] is taken as [None]. *)
Definition nullable {A} (conv : json -> option A) (v : json) : option (option A) :=
  match v with
  | JNull => Some None
  | _ => Some <$> conv v
  end.

(** [Field(..., ge=lo)] and [Field(..., le=hi)]: a NaN meets no bound. *)
Definition meets_ge (lo x : float) : bool := PrimFloat.leb lo x.
Definition meets_le (hi x : float) : bool := PrimFloat.leb x hi.

(** One entry of a validation error: the field and the kind of failure. *)
Inductive ErrorType :=
  | missing
  | string_type
  | float_type
  | bool_type
  | list_type
  | greater_than_equal
  | less_than_equal.

Definition ErrorDetail : Type := string * ErrorType.

Definition field_result (A : Type) : Type := list ErrorDetail + A.

(** [Field(...)]: a required field *)
Definition required {A} (loc : string) (conv : json -> option A) (kind : ErrorType)
    (p : Payload) : field_result A :=
  match p !! loc with
  | None => inl [(loc, missing)]
  | Some v =>
      match conv v with
      | Some a => inr a
      | None => inl [(loc, kind)]
      end
  end.

(** [Field(default)]: a field with a default *)
Definition with_default {A} (loc : string) (conv : json -> option A) (kind : ErrorType)
    (dflt : A) (p : Payload) : field_result A :=
  match p !! loc with
  | None => inr dflt
  | Some v =>
      match conv v with
      | Some a => inr a
      | None => inl [(loc, kind)]
      end
  end.

(** The bounds of a number, the upper bound checked first; the first
    bound that is not met is reported. *)
Definition bounded (loc : string) (lo : float) (hi : option float)
    (x : float) : field_result float :=
  match hi with
  | Some h =>
      if meets_le h x then
        if meets_ge lo x then inr x else inl [(loc, greater_than_equal)]
      else inl [(loc, less_than_equal)]
  | None => if meets_ge lo x then inr x else inl [(loc, greater_than_equal)]
  end.

(** The defaults of the schema. *)
Definition default_category : string := "perfume".
Definition default_in_stock : bool := true.
Definition default_rating : option float := Some 4.5%float.
Definition default_notes : option (list string) := Some [].

Definition title_field (p : Payload) : field_result string :=
  required "title" as_str string_type p.

Definition description_field (p : Payload) : field_result (option string) :=
  with_default "description" (nullable as_str) string_type None p.

Definition price_field (lax : Lax) (p : Payload) : field_result float :=
  match required "price" (as_float lax) float_type p with
  | inr x => bounded "price" 0 None x
  | inl errs => inl errs
  end.

Definition category_field (p : Payload) : field_result string :=
  with_default "category" as_str string_type default_category p.

Definition in_stock_field (lax : Lax) (p : Payload) : field_result bool :=
  with_default "in_stock" (as_bool lax) bool_type default_in_stock p.

Definition image_field (p : Payload) : field_result (option string) :=
  with_default "image" (nullable as_str) string_type None p.

(** The bounds of [rating] apply to a number; [null] passes, and so
    does the default of an absent field. *)
Definition rating_field (lax : Lax) (p : Payload) : field_result (option float) :=
  match p !! "rating" with
  | None => inr default_rating
  | Some v =>
      match nullable (as_float lax) v with
      | Some (Some x) =>
          match bounded "rating" 0 (Some 5%float) x with
          | inr y => inr (Some y)
          | inl errs => inl errs
          end
      | Some None => inr None
      | None => inl [("rating", float_type)]
      end
  end.

Definition notes_field (p : Payload) : field_result (option (list string)) :=
  with_default "notes" (nullable as_str_list) list_type default_notes p.

Definition errors_of {A} (r : field_result A) : list ErrorDetail :=
  match r with
  | inl errs => errs
  | inr _ => []
  end.

(** The errors of all fields, in the order of the schema. *)
Definition validation_errors (lax : Lax) (p : Payload) : list ErrorDetail :=
  (errors_of (title_field p) ++ errors_of (description_field p)
   ++ errors_of (price_field lax p) ++ errors_of (category_field p)
   ++ errors_of (in_stock_field lax p) ++ errors_of (image_field p)
   ++ errors_of (rating_field lax p) ++ errors_of (notes_field p))%list.

(** Building a [ProductIn] from the payload: every field is validated
    and all errors are collected; without errors the model is built,
    absent fields taking their defaults.  Keys the schema does not
    declare are ignored. *)
Definition validate_create (lax : Lax) (p : Payload) : list ErrorDetail + ProductIn :=
  match title_field p, description_field p, price_field lax p, category_field p with
  | inr t, inr d, inr x, inr c =>
      match in_stock_field lax p, image_field p, rating_field lax p, notes_field p with
      | inr s, inr i, inr r, inr n =>
          inr {| title := t; description := d; price := x; category := c;
                 in_stock := s; image := i; rating := r; notes := n |}
      | _, _, _, _ => inl (validation_errors lax p)
      end
  | _, _, _, _ => inl (validation_errors lax p)
  end.

Definition rejected (lax : Lax) (p : Payload) : Prop :=
  exists errs, validate_create lax p = inl errs.

Definition accepted (lax : Lax) (p : Payload) : Prop :=
  exists v, validate_create lax p = inr v.

(** ** Python objects

    A variable of type [dict] holds a reference to a mutable object; two
    variables may hold the same reference.  The heap maps references to
    the current contents of the dictionaries.  A computation of type
    [Py A] reads and writes the heap; the result [None] stands for an
    operation that raises ([KeyError]) or a reference to no object. *)

Abbreviation loc := positive.
Abbreviation heap := (gmap positive (gmap string value)).

Inductive pyobj := PyNone | PyDict (l : loc).

Definition Py (A : Type) : Type := heap -> option (A * heap).

#[global] Instance Py_ret : MRet Py := fun A a h => Some (a, h).

#[global] Instance Py_bind : MBind Py := fun A B f m h =>
  match m h with
  | Some (a, h') => f a h'
  | None => None
  end.

Definition load (l : loc) : Py dict :=
  fun h => match h !! l with Some d => Some (d, h) | None => None end.

Definition store (l : loc) (d : dict) : Py unit :=
  fun h => Some (tt, <[l := d]> h).

Definition alloc (d : dict) : Py loc :=
  fun h => let l := fresh (dom h) in Some (l, <[l := d]> h).

Definition key_error {A} : Py A := fun _ => None.

(** [bool(doc)]: [None] and the empty dictionary are falsy *)
Definition truthy (doc : pyobj) : Py bool :=
  match doc with
  | PyNone => mret false
  | PyDict l => d ← load l; mret (negb (Nat.eqb (size d) 0))
  end.

(** [{**doc}]: a new dictionary with the same items *)
Definition dict_copy (l : loc) : Py loc :=
  d ← load l; alloc d.

(** [d.get(key)] *)
Definition dict_get (l : loc) (key : string) : Py value :=
  d ← load l; mret (default VNone (d !! key)).

(** [d[key] = v] *)
Definition dict_setitem (l : loc) (key : string) (v : value) : Py unit :=
  d ← load l; store l (<[key := v]> d).

(** [del d[key]] *)
Definition dict_delitem (l : loc) (key : string) : Py unit :=
  d ← load l;
  match d !! key with
  | Some _ => store l (delete key d)
  | None => key_error
  end.

(** ** Utils: [serialize_doc] *)

Definition serialize_doc (doc : pyobj) : Py pyobj :=
  t ← truthy doc;
  if negb t then mret doc
  else
    match doc with
    | PyNone => mret doc
    | PyDict l =>
        d ← dict_copy l;
        _id ← dict_get d "_id";
        _ ← match isinstance_ObjectId _id with
            | Some oid =>
                _ ← dict_setitem d "id" (VStr (ObjectId_str oid));
                dict_delitem d "_id"
            | None => mret tt
            end;
        mret (PyDict d)
    end.

(** The dictionary a variable holds, [None] for Python's [None]. *)
Definition contents (h : heap) (doc : pyobj) : option dict :=
  match doc with
  | PyNone => None
  | PyDict l => h !! l
  end.

(** A variable is live when it holds [None] or a reference to an object
    of the heap. *)
Definition live (h : heap) (doc : pyobj) : Prop :=
  match doc with
  | PyNone => True
  | PyDict l => is_Some (h !! l)
  end.

(** The items [serialize_doc] leaves in the dictionary it returns. *)
Definition reshaped (d : dict) : dict :=
  match d !! "_id" with
  | Some (VObjectId oid) => delete "_id" (<["id" := VStr (ObjectId_str oid)]> d)
  | _ => d
  end.

(** What a handler returns for a stored record: the contents of the
    dictionary [serialize_doc] returns when it is given a reference to a
    dictionary that holds the record (the store hands out a new
    dictionary for every record it finds). *)
Definition serialize (record : dict) : dict :=
  match serialize_doc (PyDict 1%positive) {[1%positive := record]} with
  | Some (out, h) => default record (contents h out)
  | None => record
  end.

(** ** The document store

    The store is an external collaborator.  Its state is the list of
    records of every collection, in insertion order.  The identifiers
    it assigns are its own choice: [oid_source d n] is the identifier
    the store [d] gives to the record of its [n]-th insert, and
    [issued d] counts the inserts made.  Its pattern matcher is its own:
    [regex_search d pattern options text] tells whether the store [d]
    finds [pattern] in [text] under [options].  A store whose
    connection is broken raises the error [fault] on every call. *)

Record Database := mkDatabase {
  collections : gmap string (list (gmap string value));
  issued : nat;
  oid_source : nat -> ObjectId;
  regex_search : string -> string -> string -> bool;
  fault : option string
}.

(** Query filters, as the handlers build them. *)
Inductive Filter :=
  | FEmpty                                   (* {} *)
  | FTitleRegex (pattern options : string)   (* {"title": {"$regex": q, "$options": "i"}} *)
  | FId (oid : ObjectId).                    (* {"_id": oid} *)

(** The operations a handler asks of the store. *)
Inductive StoreCall :=
  | CountDocuments (collection : string) (filt : Filter)
  | FindOne (collection : string) (filt : Filter)
  | Find (collection : string) (filt : Filter) (limit : Z)
  | InsertOne (collection : string) (document : dict)
  | ListCollectionNames.

Definition is_insert (c : StoreCall) : bool :=
  match c with
  | InsertOne _ _ => true
  | _ => false
  end.

(** The process: the connection handle [database.db] ([None] when the
    store was never connected), the environment variables, and the
    store operations performed so far, oldest first. *)
Record World := mkWorld {
  db : option Database;
  environ : gmap string string;
  calls : list StoreCall
}.

Inductive exn :=
  | HTTPException (status_code : Z) (detail : string)
  | Exception (message : string).

Inductive outcome (A : Type) :=
  | Return (a : A)
  | Raise (e : exn).
Arguments Return {A} a.
Arguments Raise {A} e.

(** A handler computation: it returns or raises, and changes the world. *)
Definition App (A : Type) : Type := World -> outcome A * World.

#[global] Instance App_ret : MRet App := fun A a w => (Return a, w).

#[global] Instance App_bind : MBind App := fun A B f m w =>
  match m w with
  | (Return a, w') => f a w'
  | (Raise e, w') => (Raise e, w')
  end.

Definition raise {A} (e : exn) : App A := fun w => (Raise e, w).

(** [try: body except Exception: handler] *)
Definition try_except {A} (body : App A) (handler : exn -> App A) : App A :=
  fun w =>
    match body w with
    | (Return a, w') => (Return a, w')
    | (Raise e, w') => handler e w'
    end.

(** [db is None] *)
Definition db_is_None : App bool :=
  fun w => (Return (match db w with None => true | Some _ => false end), w).

(** [os.getenv(name)] *)
Definition getenv (name : string) : App (option string) :=
  fun w => (Return (environ w !! name), w).

(** [db[name]] *)
Definition collection (d : Database) (name : string) : list dict :=
  default [] (collections d !! name).

Definition matches (d : Database) (filt : Filter) (record : dict) : bool :=
  match filt with
  | FEmpty => true
  | FTitleRegex pattern options =>
      match record !! "title" with
      | Some (VStr t) => regex_search d pattern options t
      | _ => false
      end
  | FId oid =>
      match record !! "_id" with
      | Some (VObjectId o) => bool_decide (o = oid)
      | _ => false
      end
  end.

(** One call of the driver: recorded, then answered by the store, or
    failed by a broken connection.  Without a handle there is no store
    to call. *)
Definition driver {A} (call : StoreCall) (op : Database -> A * Database) : App A :=
  fun w =>
    match db w with
    | None => (Raise (Exception "Database not available"), w)
    | Some d =>
        let called := (calls w ++ [call])%list in
        match fault d with
        | Some message =>
            (Raise (Exception message),
             {| db := Some d; environ := environ w; calls := called |})
        | None =>
            let '(a, d') := op d in
            (Return a, {| db := Some d'; environ := environ w; calls := called |})
        end
    end.

(** [db[name].count_documents(filt)] *)
Definition count_documents (name : string) (filt : Filter) : App Z :=
  driver (CountDocuments name filt)
    (fun d => (Z.of_nat (length (List.filter (matches d filt) (collection d name))), d)).

(** [db[name].find_one(filt)] *)
Definition find_one (name : string) (filt : Filter) : App (option dict) :=
  driver (FindOne name filt)
    (fun d => (head (List.filter (matches d filt) (collection d name)), d)).

(** [db.list_collection_names()] *)
Definition list_collection_names : App (list string) :=
  driver ListCollectionNames
    (fun d => ((map_to_list (collections d)).*1, d)).

(** The identifier the store gives to the record of its next insert. *)
Definition next_id (d : Database) : ObjectId := oid_source d (issued d).

(** [db[name].insert_one(document)]: the store assigns an identifier of
    its choice and appends the record. *)
Definition insert_one (name : string) (document : dict) : App ObjectId :=
  driver (InsertOne name document)
    (fun d =>
       let oid := next_id d in
       let record := <["_id" := VObjectId oid]> document in
       (oid,
        {| collections := <[name := (collection d name ++ [record])%list]> (collections d);
           issued := S (issued d);
           oid_source := oid_source d;
           regex_search := regex_search d;
           fault := fault d |})).

(** [db[name].find(filt).limit(limit)]: the first [limit] matching
    records.  For a limit below one the model answers with no record;
    no property below relies on that. *)
Definition find_many (name : string) (filt : Filter) (limit : Z) : App (list dict) :=
  driver (Find name filt limit)
    (fun d => (take (Z.to_nat limit) (List.filter (matches d filt) (collection d name)), d)).

(** Modelled from the spec: [database.get_documents], which is not among
    the sources, is the store's find-many(filter, limit): the records of
    the collection that match the filter, in the store's natural order,
    at most [limit] of them. *)
Definition get_documents (name : string) (filt : Filter) (limit : Z) : App (list dict) :=
  find_many name filt limit.

(** Modelled from the spec: [database.create_document], which is not among
    the sources, is the store's insert-one: it inserts the record and
    returns the string form of the identifier the store assigned. *)
Definition create_document (name : string) (data : dict) : App string :=
  oid ← insert_one name data; mret (ObjectId_str oid).

(** ** Routes *)

Definition unavailable {A} : App A :=
  raise (HTTPException 500 "Database not available").

(** [if q:] for an optional string: [None] and the empty string are falsy *)
Definition str_truthy (q : option string) : bool :=
  match q with
  | Some (String _ _) => true
  | _ => false
  end.

(** The filter [list_products] builds from [q]. *)
Definition build_filter (q : option string) : Filter :=
  match q with
  | Some pattern => if str_truthy q then FTitleRegex pattern "i" else FEmpty
  | None => FEmpty
  end.

(** [min(limit, 100)] *)
Definition effective_limit (limit : Z) : Z := Z.min limit 100.

(** [GET /products] *)
Definition list_products (limit : Z) (q : option string) : App (list dict) :=
  none ← db_is_None;
  if (none : bool) then unavailable
  else
    let filt := build_filter q in
    docs ← get_documents "product" filt (effective_limit limit);
    mret (serialize <$> docs).

Definition optional {A} (inj : A -> value) (o : option A) : value :=
  match o with
  | Some a => inj a
  | None => VNone
  end.

(** [product.model_dump()] *)
Definition model_dump (product : ProductIn) : dict :=
  <["title" := VStr (title product)]>
  (<["description" := optional VStr (description product)]>
  (<["price" := VFloat (price product)]>
  (<["category" := VStr (category product)]>
  (<["in_stock" := VBool (in_stock product)]>
  (<["image" := optional VStr (image product)]>
  (<["rating" := optional VFloat (rating product)]>
  (<["notes" := optional (fun l => VList (VStr <$> l)) (notes product)]> ∅))))))).

(** [POST /products] *)
Definition create_product (product : ProductIn) : App string :=
  none ← db_is_None;
  if (none : bool) then unavailable
  else create_document "product" (model_dump product).

(** [ObjectId(product_id)], which raises on text that is no identifier *)
Definition new_ObjectId (text : string) : App ObjectId :=
  match ObjectId_of_str text with
  | Some oid => mret oid
  | None => raise (Exception "InvalidId")
  end.

(** [not doc] for the result of [find_one] *)
Definition doc_falsy (doc : option dict) : bool :=
  match doc with
  | None => true
  | Some d => Nat.eqb (size d) 0
  end.

(** [GET /products/{product_id}] *)
Definition get_product (product_id : string) : App dict :=
  none ← db_is_None;
  if (none : bool) then unavailable
  else
    oid ← try_except (new_ObjectId product_id)
          (fun _ => raise (HTTPException 400 "Invalid product id"));
    doc ← find_one "product" (FId oid);
    match doc with
    | Some d =>
        if doc_falsy doc then raise (HTTPException 404 "Product not found")
        else mret (serialize d)
    | None => raise (HTTPException 404 "Product not found")
    end.

Definition sample (title description : string) (price : float) (image : string)
    (rating : float) (notes : list string) : dict :=
  <["title" := VStr title]>
  (<["description" := VStr description]>
  (<["price" := VFloat price]>
  (<["category" := VStr "perfume"]>
  (<["in_stock" := VBool true]>
  (<["image" := VStr image]>
  (<["rating" := VFloat rating]>
  (<["notes" := VList (VStr <$> notes)]> ∅))))))).

#[warnings="-inexact-float"]
Definition samples : list dict :=
  [ sample "Citrus Bloom Eau de Parfum"
      "A bright, sparkling blend of bergamot, neroli, and white musk."
      68%float
      "https://images.unsplash.com/photo-1541643600914-78b084683601?q=80&w=1200&auto=format&fit=crop"
      4.7%float ["bergamot"; "neroli"; "white musk"];
    sample "Amber Leaf Elixir"
      "Warm amber wrapped in vanilla and a hint of tobacco leaf."
      84%float
      "https://images.unsplash.com/photo-1595433707802-6b2626ef1c86?q=80&w=1200&auto=format&fit=crop"
      4.6%float ["amber"; "vanilla"; "tobacco"];
    sample "Verdant Whisper"
      "Green tea freshness meets jasmine petals and cedarwood."
      72%float
      "https://images.unsplash.com/photo-1563170423-18f482d82cc8?q=80&w=1200&auto=format&fit=crop"
      4.5%float ["green tea"; "jasmine"; "cedarwood"] ].

(** [for s in items: create_document("product", s)] *)
Fixpoint create_each (items : list dict) : App unit :=
  match items with
  | [] => mret tt
  | s :: rest => _ ← create_document "product" s; create_each rest
  end.

(** [POST /seed] *)
Definition seed_products : App dict :=
  none ← db_is_None;
  if (none : bool) then unavailable
  else
    existing ← count_documents "product" FEmpty;
    if existing >? 0 then
      mret (<["status" := VStr "ok"]>
           (<["message" := VStr "Products already exist"]>
           (<["count" := VInt existing]> ∅)))
    else
      _ ← create_each samples;
      count ← count_documents "product" FEmpty;
      mret (<["status" := VStr "ok"]>
           (<["inserted" := VInt (Z.of_nat (length samples))]>
           (<["count" := VInt count]> ∅))).

(** [str(e)] *)
Definition exn_str (e : exn) : string :=
  match e with
  | HTTPException _ detail => detail
  | Exception message => message
  end.

Definition initial_response : dict :=
  <["backend" := VStr "✅ Running"]>
  (<["database" := VStr "❌ Not Available"]>
  (<["database_url" := VNone]>
  (<["database_name" := VNone]>
  (<["connection_status" := VStr "Not Connected"]>
  (<["collections" := VList []]> ∅))))).

(** A block of statements of [test_database]: it updates the local
    dictionary [response] and ends normally ([None]) or by an exception;
    either way the dictionary keeps the updates made so far. *)
Definition Block : Type := dict -> World -> (option exn * dict) * World.

(** [response[key] = v] *)
Definition assign (key : string) (v : value) : Block :=
  fun response w => ((None, <[key := v]> response), w).

(** [x = call; rest] *)
Definition call_then {A} (call : App A) (rest : A -> Block) : Block :=
  fun response w =>
    match call w with
    | (Return a, w') => rest a response w'
    | (Raise e, w') => ((Some e, response), w')
    end.

(** [first; second] *)
Definition then_ (first second : Block) : Block :=
  fun response w =>
    match first response w with
    | ((None, response'), w') => second response' w'
    | ((Some e, response'), w') => ((Some e, response'), w')
    end.

(** [try: body except Exception as e: handler] *)
Definition try_block (body : Block) (handler : exn -> Block) : Block :=
  fun response w =>
    match body response w with
    | ((None, response'), w') => ((None, response'), w')
    | ((Some e, response'), w') => handler e response' w'
    end.

(** [GET /test] *)
Definition test_database : App dict :=
  fun w =>
    let body :=
      try_block
        (call_then db_is_None (fun none =>
           if negb none then
             then_ (assign "database" (VStr "✅ Available"))
            (call_then (getenv "DATABASE_URL") (fun url =>
             then_ (assign "database_url"
                      (VStr (if str_truthy url then "✅ Set" else "❌ Not Set")))
            (call_then (getenv "DATABASE_NAME") (fun name =>
             then_ (assign "database_name"
                      (VStr (match name with
                             | Some n => if str_truthy name then n else "❌ Not Set"
                             | None => "❌ Not Set"
                             end)))
            (try_block
               (call_then list_collection_names (fun names =>
                then_ (assign "collections" (VList (VStr <$> take 10 names)))
               (then_ (assign "database" (VStr "✅ Connected & Working"))
                      (assign "connection_status" (VStr "Connected")))))
               (fun e =>
                  assign "database"
                    (VStr ("⚠️ Connected but Error: " ++ str_prefix 80 (exn_str e)))))))))
           else
             assign "database" (VStr "⚠️ Available but not initialized")))
        (fun e => assign "database" (VStr ("❌ Error: " ++ str_prefix 80 (exn_str e))))
    in
    match body initial_response w with
    | ((None, response), w') => (Return response, w')
    | ((Some e, _), w') => (Raise e, w')
    end.

(** ** The statements of the specification *)

(** The rejection rule as the specification words it: [title] missing or
    empty, [price] missing or negative, [rating] present and outside
    [[0,5]]. *)
Definition spec_rejects (lax : Lax) (p : Payload) : Prop :=
  (p !! "title" = None \/ p !! "title" = Some (JStr ""))
  \/ (p !! "price" = None
      \/ exists v x, p !! "price" = Some v /\ as_float lax v = Some x
                     /\ PrimFloat.ltb x 0 = true)
  \/ (exists v x, p !! "rating" = Some v /\ as_float lax v = Some x
                  /\ (PrimFloat.ltb x 0 = true \/ PrimFloat.ltb 5 x = true)).

(** The validation of a field fails. *)
Definition field_fails {A} (r : field_result A) : Prop :=
  exists errs, r = inl errs.

(** A field is refused when it is present with a value that does not
    convert to the declared type. *)
Definition refused {A} (loc : string) (conv : json -> option A) (p : Payload) : Prop :=
  exists v, p !! loc = Some v /\ conv v = None.

(** The rejection rule of the schema, field by field. *)
Definition title_rejected (p : Payload) : Prop :=
  p !! "title" = None \/ refused "title" as_str p.

Definition price_rejected (lax : Lax) (p : Payload) : Prop :=
  p !! "price" = None
  \/ refused "price" (as_float lax) p
  \/ exists v x, p !! "price" = Some v /\ as_float lax v = Some x
                 /\ meets_ge 0 x = false.

Definition rating_rejected (lax : Lax) (p : Payload) : Prop :=
  refused "rating" (nullable (as_float lax)) p
  \/ exists v x, p !! "rating" = Some v
                 /\ nullable (as_float lax) v = Some (Some x)
                 /\ (meets_ge 0 x = false \/ meets_le 5 x = false).

Definition schema_rejects (lax : Lax) (p : Payload) : Prop :=
  title_rejected p
  \/ price_rejected lax p
  \/ rating_rejected lax p
  \/ refused "description" (nullable as_str) p
  \/ refused "category" as_str p
  \/ refused "in_stock" (as_bool lax) p
  \/ refused "image" (nullable as_str) p
  \/ refused "notes" (nullable as_str_list) p.

(** A field of the product is the field of the payload, converted to
    the declared type, or the default when the payload has none. *)
Definition given_or_default {A} (loc : string) (conv : json -> option A)
    (dflt actual : A) (p : Payload) : Prop :=
  match p !! loc with
  | Some v => conv v = Some actual
  | None => actual = dflt
  end.

(** A validator that converts nothing but numbers to numbers. *)
Definition no_coercion : Lax :=
  {| str_to_float := fun _ => None;
     bool_to_float := fun _ => None;
     to_bool := fun _ => None |}.

(** The payload [{"title": "", "price": 10}]. *)
Definition empty_title_payload : Payload :=
  <["title" := JStr ""]> {["price" := JInt 10]}.

(** The payload [{"title": "X", "price": 10}]. *)
Definition minimal_payload : Payload :=
  <["title" := JStr "X"]> {["price" := JInt 10]}.

(** The payload [{"title": 5, "price": 10}]. *)
Definition numeric_title_payload : Payload :=
  <["title" := JInt 5]> {["price" := JInt 10]}.

(** The payload [{"title": "X", "price": NaN}]. *)
Definition nan_price_payload : Payload :=
  <["title" := JStr "X"]> {["price" := JFloat nan]}.

(** The payload [{"title": "X", "price": 10, "category": 7}]. *)
Definition numeric_category_payload : Payload :=
  <["title" := JStr "X"]> (<["price" := JInt 10]> {["category" := JInt 7]}).


(** The limits of the find-many operations among store calls. *)
Definition find_limits (cs : list StoreCall) : list Z :=
  omap (fun c => match c with Find _ _ limit => Some limit | _ => None end) cs.

(** The range the specification gives for the effective limit. *)
Definition limit_in_range (limit : Z) : Prop := 1 <= limit <= 100.

(** A record carries the native id [oid]. *)
Definition has_id (oid : ObjectId) (record : dict) : Prop :=
  record !! "_id" = Some (VObjectId oid).



(** ** Example worlds *)

(** A matcher for the example stores: the pattern occurs in the text. *)
Definition literal_search (pattern options text : string) : bool :=
  match index 0 pattern text with
  | Some _ => true
  | None => false
  end.

(** The bytes of a number, most significant first. *)
Fixpoint bytes_of_N (width : nat) (n : N) (acc : list byte) : list byte :=
  match width with
  | O => acc
  | S w =>
      bytes_of_N w (n / 256)%N
        (match Byte.of_N (n mod 256)%N with
         | Some b => b :: acc
         | None => acc
         end)
  end.

(** The identifier of twelve bytes that spells the number [n]. *)
Definition example_id (n : N) : ObjectId := mkObjectId (bytes_of_N 12 n []).

(** The example stores give the identifiers 0, 1, 2, ... *)
Definition counting_ids (n : nat) : ObjectId := example_id (N.of_nat n).

Definition empty_store : Database :=
  {| collections := ∅; issued := 0; oid_source := counting_ids;
     regex_search := literal_search; fault := None |}.

(** A store that holds one product, inserted with the first identifier. *)
Definition one_product_store : Database :=
  {| collections :=
       {["product" := [ <["_id" := VObjectId (example_id 0)]> {["title" := VStr "X"]} ]]};
     issued := 1; oid_source := counting_ids;
     regex_search := literal_search; fault := None |}.

Definition connected (d : Database) : World :=
  {| db := Some d; environ := ∅; calls := [] |}.

Definition offline : World :=
  {| db := None; environ := ∅; calls := [] |}.

(** A store whose connection is broken. *)
Definition broken_store : Database :=
  {| collections := ∅; issued := 0; oid_source := counting_ids;
     regex_search := literal_search; fault := Some "connection refused" |}.

(** The product [validate_create] builds from [{"title": "X", "price": 10}]. *)
Definition minimal_product : ProductIn :=
  {| title := "X"; description := None; price := 10%float; category := "perfume";
     in_stock := true; image := None; rating := Some 4.5%float; notes := Some [] |}.

(** ** Statements about the rest of the code *)

(** A stored record that carries some native id under [_id]. *)
Definition carries_native_id (record : dict) : Prop :=
  exists oid, has_id oid record.

(** A record in wire shape: no [_id], and a string under [id]. *)
Definition wire_shaped (record : dict) : Prop :=
  record !! "_id" = None /\ exists text, record !! "id" = Some (VStr text).

(** The keys of the diagnostic response. *)
Definition response_keys : gset string :=
  {[ "backend"; "database"; "database_url"; "database_name";
     "connection_status"; "collections" ]}.

(** A store with two products, whose second record carries the
    identifier 255. *)
Definition two_product_store : Database :=
  {| collections :=
       {["product" :=
          [ <["_id" := VObjectId (example_id 0)]> {["title" := VStr "X"]};
            <["_id" := VObjectId (example_id 255)]> {["title" := VStr "Y"]} ]]};
     issued := 256; oid_source := counting_ids;
     regex_search := literal_search; fault := None |}.

(** The records a store keeps for [items] inserted one after the
    other, the first of them by its [n]-th insert, when [source] gives
    its identifiers. *)
Fixpoint with_ids (source : nat -> ObjectId) (n : nat) (items : list dict) : list dict :=
  match items with
  | [] => []
  | s :: rest => <["_id" := VObjectId (source n)]> s :: with_ids source (S n) rest
  end.

(** A record with a text under [_id], which is no native id. *)
Definition text_id_record : dict :=
  <["_id" := VStr "abc"]> {["id" := VStr "z"]}.

(** * Properties *)

(** ** Validation of create payloads *)

Lemma field_result_cases {A} (r : field_result A) :
  field_fails r \/ exists a, r = inr a.
Proof. destruct r as [errs|a]; [left | right]; eexists; reflexivity. Qed.

Lemma field_fails_not_inr {A} (r : field_result A) (a : A) :
  field_fails r -> r <> inr a.
Proof. intros [errs ->]. discriminate. Qed.

Lemma required_inr {A} (loc : string) (conv : json -> option A) (kind : ErrorType)
    (p : Payload) (a : A) :
  required loc conv kind p = inr a <->
  exists v, p !! loc = Some v /\ conv v = Some a.
Proof.
  unfold required. destruct (p !! loc) as [v|].
  - destruct (conv v) as [a'|] eqn:Hc; split.
    + intros H. inversion H. subst. eauto.
    + intros (v' & Hv & Ha). inversion Hv. subst. congruence.
    + discriminate.
    + intros (v' & Hv & Ha). inversion Hv. subst. congruence.
  - split; [discriminate | intros (v & Hv & _); discriminate].
Qed.

Lemma required_fails {A} (loc : string) (conv : json -> option A) (kind : ErrorType)
    (p : Payload) :
  field_fails (required loc conv kind p) <-> p !! loc = None \/ refused loc conv p.
Proof.
  unfold required, refused, field_fails. destruct (p !! loc) as [v|].
  - destruct (conv v) as [a|] eqn:Hc; split.
    + intros [errs H]. discriminate.
    + intros [H | (v' & Hv & Hn)]; [discriminate|]. inversion Hv. subst. congruence.
    + intros _. right. eauto.
    + intros _. eexists. reflexivity.
  - split; [auto | intros _; eexists; reflexivity].
Qed.


Lemma with_default_fails {A} (loc : string) (conv : json -> option A) (kind : ErrorType)
    (dflt : A) (p : Payload) :
  field_fails (with_default loc conv kind dflt p) <-> refused loc conv p.
Proof.
  unfold with_default, refused, field_fails. destruct (p !! loc) as [v|].
  - destruct (conv v) as [a|] eqn:Hc; split.
    + intros [errs H]. discriminate.
    + intros (v' & Hv & Hn). inversion Hv. subst. congruence.
    + intros _. eauto.
    + intros _. eexists. reflexivity.
  - split; [intros [errs H]; discriminate | intros (v & Hv & _); discriminate].
Qed.

Lemma bounded_below_inr (loc : string) (x y : float) :
  bounded loc 0 None x = inr y <-> y = x /\ meets_ge 0 x = true.
Proof.
  unfold bounded. destruct (meets_ge 0 x); split.
  - intros H. inversion H. auto.
  - intros [-> _]. reflexivity.
  - discriminate.
  - intros [_ H]. discriminate.
Qed.

Lemma bounded_both_inr (loc : string) (x y : float) :
  bounded loc 0 (Some 5%float) x = inr y <->
  y = x /\ meets_ge 0 x = true /\ meets_le 5 x = true.
Proof.
  unfold bounded. destruct (meets_le 5 x), (meets_ge 0 x); split;
    intros H; try discriminate.
  - inversion H. auto.
  - destruct H as (-> & _ & _). reflexivity.
  - destruct H as (_ & H & _). discriminate.
  - destruct H as (_ & _ & H). discriminate.
  - destruct H as (_ & _ & H). discriminate.
Qed.

Lemma price_field_inr (lax : Lax) (p : Payload) (x : float) :
  price_field lax p = inr x <->
  exists v, p !! "price" = Some v /\ as_float lax v = Some x /\ meets_ge 0 x = true.
Proof.
  unfold price_field.
  destruct (required "price" (as_float lax) float_type p) as [errs|y] eqn:Hr.
  - split; [discriminate|]. intros (v & Hv & Hc & _).
    assert (Hy : required "price" (as_float lax) float_type p = inr x)
      by (apply required_inr; eauto).
    congruence.
  - apply required_inr in Hr as (v & Hv & Hc). rewrite bounded_below_inr. split.
    + intros [-> Hge]. eauto.
    + intros (v' & Hv' & Hc' & Hge). rewrite Hv in Hv'. inversion Hv'. subst v'.
      split; congruence.
Qed.

Lemma price_field_fails (lax : Lax) (p : Payload) :
  field_fails (price_field lax p) <-> price_rejected lax p.
Proof.
  unfold price_rejected. split.
  - intros Hf. destruct (p !! "price") as [v|] eqn:Hv; [|auto]. right.
    destruct (as_float lax v) as [x|] eqn:Hc; [|left; exists v; auto]. right.
    exists v, x. split; [reflexivity|]. split; [exact Hc|].
    destruct (meets_ge 0 x) eqn:Hge; [|reflexivity]. exfalso.
    apply (field_fails_not_inr _ x Hf). apply price_field_inr. eauto.
  - intros Hrej. destruct (field_result_cases (price_field lax p)) as [Hf | [x Hx]];
      [exact Hf|]. exfalso.
    apply price_field_inr in Hx as (v & Hv & Hc & Hge).
    destruct Hrej as [Hn | [(v' & Hv' & Hn) | (v' & x' & Hv' & Hc' & Hlt)]];
      congruence.
Qed.

Lemma rating_field_inr (lax : Lax) (p : Payload) (r : option float) :
  rating_field lax p = inr r <->
  given_or_default "rating" (nullable (as_float lax)) default_rating r p
  /\ (forall v x, p !! "rating" = Some v -> r = Some x ->
      meets_ge 0 x = true /\ meets_le 5 x = true).
Proof.
  unfold rating_field, given_or_default. destruct (p !! "rating") as [v|].
  - destruct (nullable (as_float lax) v) as [[x|]|] eqn:Hc.
    + destruct (bounded "rating" 0 (Some 5%float) x) as [errs|y] eqn:Hb; split.
      * discriminate.
      * intros [Hr Hbounds]. inversion Hr. subst r.
        destruct (Hbounds v x eq_refl eq_refl) as [Hge Hle].
        assert (Hy : bounded "rating" 0 (Some 5%float) x = inr x)
          by (apply bounded_both_inr; auto).
        congruence.
      * apply bounded_both_inr in Hb as (-> & Hge & Hle).
        intros H. inversion H. subst r. split; [reflexivity|].
        intros v' x' _ Hx'. inversion Hx'. subst. auto.
      * apply bounded_both_inr in Hb as (-> & Hge & Hle).
        intros [Hr _]. congruence.
    + split.
      * intros H. inversion H. subst r. split; [reflexivity|]. intros v' x' _ Hx'.
        discriminate.
      * intros [Hr _]. congruence.
    + split; [discriminate | intros [Hr _]; discriminate].
  - split.
    + intros H. inversion H. split; [reflexivity|]. intros v x Hv. discriminate.
    + intros [-> _]. reflexivity.
Qed.

Lemma rating_field_fails (lax : Lax) (p : Payload) :
  field_fails (rating_field lax p) <-> rating_rejected lax p.
Proof.
  unfold rating_rejected, refused. split.
  - intros Hf. destruct (p !! "rating") as [v|] eqn:Hv.
    + destruct (nullable (as_float lax) v) as [[x|]|] eqn:Hc.
      * right. exists v, x. split; [reflexivity|]. split; [exact Hc|].
        destruct (meets_ge 0 x) eqn:Hge; [|auto].
        destruct (meets_le 5 x) eqn:Hle; [|auto]. exfalso.
        apply (field_fails_not_inr _ (Some x) Hf). apply rating_field_inr.
        unfold given_or_default. rewrite Hv. split; [exact Hc|].
        intros v' x' _ Hx'. inversion Hx'. subst. auto.
      * exfalso. apply (field_fails_not_inr _ None Hf). apply rating_field_inr.
        unfold given_or_default. rewrite Hv. split; [exact Hc|].
        intros v' x' _ Hx'. discriminate.
      * left. eauto.
    + exfalso. apply (field_fails_not_inr _ default_rating Hf).
      apply rating_field_inr. unfold given_or_default. rewrite Hv.
      split; [reflexivity|]. intros v x Hv'. discriminate.
  - intros Hrej. destruct (field_result_cases (rating_field lax p)) as [Hf | [r Hr]];
      [exact Hf|]. exfalso.
    apply rating_field_inr in Hr as [Hg Hb]. unfold given_or_default in Hg.
    destruct Hrej as [(v & Hv & Hn) | (v & x & Hv & Hc & Hout)]; rewrite Hv in Hg.
    + congruence.
    + rewrite Hc in Hg. inversion Hg. subst r.
      destruct (Hb v x Hv eq_refl) as [Hge Hle].
      destruct Hout; congruence.
Qed.

(** A product is built exactly when every field passes, and then holds
    what the fields gave. *)
Lemma validate_create_inr (lax : Lax) (p : Payload) (v : ProductIn) :
  validate_create lax p = inr v <->
  title_field p = inr (title v)
  /\ description_field p = inr (description v)
  /\ price_field lax p = inr (price v)
  /\ category_field p = inr (category v)
  /\ in_stock_field lax p = inr (in_stock v)
  /\ image_field p = inr (image v)
  /\ rating_field lax p = inr (rating v)
  /\ notes_field p = inr (notes v).
Proof.
  unfold validate_create. split.
  - intros H.
    destruct (title_field p); [discriminate|].
    destruct (description_field p); [discriminate|].
    destruct (price_field lax p); [discriminate|].
    destruct (category_field p); [discriminate|].
    destruct (in_stock_field lax p); [discriminate|].
    destruct (image_field p); [discriminate|].
    destruct (rating_field lax p); [discriminate|].
    destruct (notes_field p); [discriminate|].
    inversion H. subst. simpl. repeat split; reflexivity.
  - intros (-> & -> & -> & -> & -> & -> & -> & ->). destruct v. reflexivity.
Qed.

Lemma rejected_iff_field_fails (lax : Lax) (p : Payload) :
  rejected lax p <->
  field_fails (title_field p)
  \/ field_fails (price_field lax p)
  \/ field_fails (rating_field lax p)
  \/ field_fails (description_field p)
  \/ field_fails (category_field p)
  \/ field_fails (in_stock_field lax p)
  \/ field_fails (image_field p)
  \/ field_fails (notes_field p).
Proof.
  unfold rejected, validate_create, field_fails.
  destruct (title_field p) as [e1|t]; [split; eauto|].
  destruct (description_field p) as [e2|d]; [split; eauto 10|].
  destruct (price_field lax p) as [e3|x]; [split; eauto 10|].
  destruct (category_field p) as [e4|c]; [split; eauto 10|].
  destruct (in_stock_field lax p) as [e5|s]; [split; eauto 10|].
  destruct (image_field p) as [e6|i]; [split; eauto 10|].
  destruct (rating_field lax p) as [e7|r]; [split; eauto 10|].
  destruct (notes_field p) as [e8|n]; [split; eauto 10|].
  split; [intros [errs H]; discriminate|].
  intros H. repeat (destruct H as [[errs H] | H]; [discriminate|]).
  destruct H as [errs H]. discriminate.
Qed.

Lemma accepted_iff_not_rejected (lax : Lax) (p : Payload) :
  accepted lax p <-> ~ rejected lax p.
Proof.
  unfold accepted, rejected. destruct (validate_create lax p) as [errs|v]; split.
  - intros [v H]. discriminate.
  - intros H. exfalso. apply H. eauto.
  - intros _ [errs H]. discriminate.
  - intros _. eauto.
Qed.

Lemma rejected_iff_schema_rejects (lax : Lax) (p : Payload) :
  rejected lax p <-> schema_rejects lax p.
Proof.
  rewrite rejected_iff_field_fails. unfold schema_rejects, title_rejected.
  unfold title_field, description_field, category_field, in_stock_field,
    image_field, notes_field.
  rewrite required_fails, price_field_fails, rating_field_fails.
  rewrite !with_default_fails. reflexivity.
Qed.

Lemma accepted_iff_not_schema_rejects (lax : Lax) (p : Payload) :
  accepted lax p <-> ~ schema_rejects lax p.
Proof.
  rewrite accepted_iff_not_rejected, rejected_iff_schema_rejects. reflexivity.
Qed.

Lemma spec_lets_pass (p : Payload) (t : string) :
  p !! "title" = Some (JStr t) -> t <> "" ->
  p !! "price" = Some (JInt 10) ->
  p !! "rating" = None ->
  ~ spec_rejects no_coercion p.
Proof.
  intros Ht Hne Hp Hr [[H | H] | [[H | (v & x & Hv & Hc & Hlt)] | (v & x & Hv & _)]];
    try congruence.
  rewrite Hp in Hv. inversion Hv. subst v. vm_compute in Hc. inversion Hc. subst x.
  vm_compute in Hlt. discriminate.
Qed.

(** C1, as stated, fails.  A payload whose [title] is the empty string
    is one the specification's rule rejects, and [validate_create]
    accepts it, since the schema puts no minimum length on [title]; and
    payloads the specification's rule lets pass are rejected: one whose
    [title] is a number, one whose [price] is NaN, which is not negative
    and not at least zero, and one whose [category] is a number. *)
Lemma validate_create_accepts_empty_title :
  (spec_rejects no_coercion empty_title_payload
   /\ accepted no_coercion empty_title_payload)
  /\ (~ spec_rejects no_coercion numeric_title_payload
      /\ rejected no_coercion numeric_title_payload)
  /\ (~ spec_rejects no_coercion nan_price_payload
      /\ rejected no_coercion nan_price_payload)
  /\ (~ spec_rejects no_coercion numeric_category_payload
      /\ rejected no_coercion numeric_category_payload).
Proof.
  split; [|split; [|split]].
  - split; [left; right; reflexivity | eexists; vm_compute; reflexivity].
  - split; [|eexists; vm_compute; reflexivity].
    intros [[H | H] | [[H | (v & x & Hv & Hc & Hlt)] | (v & x & Hv & _)]];
      try (vm_compute in H; discriminate); try (vm_compute in Hv; discriminate).
    vm_compute in Hv. inversion Hv. subst v. vm_compute in Hc. inversion Hc. subst x.
    vm_compute in Hlt. discriminate.
  - split; [|eexists; vm_compute; reflexivity].
    intros [[H | H] | [[H | (v & x & Hv & Hc & Hlt)] | (v & x & Hv & _)]];
      try (vm_compute in H; discriminate); try (vm_compute in Hv; discriminate).
    vm_compute in Hv. inversion Hv. subst v. vm_compute in Hc. inversion Hc. subst x.
    vm_compute in Hlt. discriminate.
  - split; [|eexists; vm_compute; reflexivity].
    apply (spec_lets_pass _ "X"); [reflexivity | discriminate | reflexivity | reflexivity].
Qed.

(** C1, amended: [validate_create] rejects a payload exactly when a
    field fails its declaration: [title] is missing or is not a text;
    [price] is missing, does not convert to a number, or is a number
    that is not at least zero (negative or NaN); [rating] is present
    and neither [null] nor a number within [[0,5]]; or one of
    [description], [category], [in_stock], [image], [notes] is present
    with a value that does not convert to its declared type.  Every
    other payload is accepted, one with an empty [title] included. *)
Theorem validate_create_rejects_iff (lax : Lax) (p : Payload) :
  (rejected lax p <-> schema_rejects lax p)
  /\ (accepted lax p <-> ~ schema_rejects lax p).
Proof.
  split; [apply rejected_iff_schema_rejects | apply accepted_iff_not_schema_rejects].
Qed.



(** ** The record shaper *)

Lemma serialize_doc_None (h : heap) :
  serialize_doc PyNone h = Some (PyNone, h).
Proof. reflexivity. Qed.

Lemma serialize_doc_empty (h : heap) (l : loc) (d : dict) :
  h !! l = Some d -> size d = 0%nat ->
  serialize_doc (PyDict l) h = Some (PyDict l, h).
Proof.
  intros Hl Hsz. unfold serialize_doc, truthy, load, mbind, Py_bind, mret, Py_ret.
  rewrite Hl, Hsz. reflexivity.
Qed.

Lemma serialize_doc_dict (h : heap) (l : loc) (d : dict) :
  h !! l = Some d -> size d <> 0%nat ->
  serialize_doc (PyDict l) h =
    Some (PyDict (fresh (dom h)), <[fresh (dom h) := reshaped d]> h).
Proof.
  intros Hl Hsz.
  unfold serialize_doc, truthy, dict_copy, dict_get, dict_setitem, dict_delitem.
  unfold load, store, alloc, mbind, Py_bind, mret, Py_ret.
  rewrite Hl. destruct (Nat.eqb_spec (size d) 0) as [|_]; [done|]. simpl.
  rewrite Hl. simpl. rewrite !lookup_insert_eq. simpl. unfold reshaped.
  destruct (d !! "_id") as [[]|] eqn:Hid; simpl; try done.
  rewrite !lookup_insert_eq. simpl.
  rewrite lookup_insert_ne by done. rewrite Hid.
  by rewrite !insert_insert_eq.
Qed.

Lemma size_zero_empty (d : dict) : size d = 0%nat -> d = ∅.
Proof. apply map_size_empty_iff. Qed.

Lemma reshaped_no_native_id (d : dict) :
  (forall oid, d !! "_id" <> Some (VObjectId oid)) -> reshaped d = d.
Proof.
  intros H. unfold reshaped.
  destruct (d !! "_id") as [[]|] eqn:E; try reflexivity.
  exfalso. apply (H oid). reflexivity.
Qed.

Lemma reshaped_native_id (d : dict) (oid : ObjectId) :
  d !! "_id" = Some (VObjectId oid) ->
  reshaped d = delete "_id" (<["id" := VStr (ObjectId_str oid)]> d).
Proof. intros H. unfold reshaped. rewrite H. reflexivity. Qed.

(** A reshaped record holds no native identifier. *)
Lemma reshaped_lookup_id (d : dict) (oid : ObjectId) :
  reshaped d !! "_id" <> Some (VObjectId oid).
Proof.
  unfold reshaped. destruct (d !! "_id") as [[]|] eqn:E;
    rewrite ?lookup_delete_eq, ?E; congruence.
Qed.

Lemma reshaped_idempotent (d : dict) : reshaped (reshaped d) = reshaped d.
Proof. apply reshaped_no_native_id. intros oid. apply reshaped_lookup_id. Qed.

(** [serialize_doc] returns for every live argument, and tells where the
    result is and what it holds. *)
Lemma serialize_doc_returns (h : heap) (doc : pyobj) :
  live h doc ->
  exists out h',
    serialize_doc doc h = Some (out, h')
    /\ contents h' out = reshaped <$> contents h doc
    /\ (forall l d, h !! l = Some d -> h' !! l = Some d).
Proof.
  destruct doc as [|l]; simpl.
  - intros _. exists PyNone, h. rewrite serialize_doc_None. auto.
  - intros [d Hd]. rewrite Hd. simpl.
    destruct (decide (size d = 0%nat)) as [Hz | Hnz].
    + exists (PyDict l), h. rewrite (serialize_doc_empty h l d Hd Hz).
      split; [reflexivity|]. split; [|auto]. simpl. rewrite Hd.
      apply size_zero_empty in Hz. subst d. reflexivity.
    + exists (PyDict (fresh (dom h))), (<[fresh (dom h) := reshaped d]> h).
      rewrite (serialize_doc_dict h l d Hd Hnz).
      split; [reflexivity|]. split.
      * simpl. apply lookup_insert_eq.
      * intros l' d' Hl'. rewrite lookup_insert_ne; [exact Hl'|].
        intros <-. assert (Hin : fresh (dom h) ∈ dom h).
        { apply elem_of_dom. eauto. }
        exact (is_fresh (dom h) Hin).
Qed.

Lemma serialize_doc_live (h h' : heap) (doc out : pyobj) :
  live h doc -> serialize_doc doc h = Some (out, h') -> live h' out.
Proof.
  intros Hlive Hrun.
  destruct (serialize_doc_returns h doc Hlive) as (out' & h'' & Hrun' & Hc & _).
  rewrite Hrun in Hrun'. inversion Hrun'. subst out' h''.
  destruct out as [|r]; simpl; [exact I|]. simpl in Hc. rewrite Hc.
  destruct doc as [|l]; simpl in *; [|destruct Hlive as [d ->]; simpl; eauto].
  rewrite serialize_doc_None in Hrun. discriminate.
Qed.

(** What a handler returns for a record is the reshaped record. *)
Lemma serialize_reshaped (record : dict) : serialize record = reshaped record.
Proof.
  unfold serialize.
  assert (Hlive : live {[1%positive := record]} (PyDict 1%positive)).
  { simpl. rewrite lookup_singleton_eq. eauto. }
  destruct (serialize_doc_returns _ _ Hlive) as (out & h' & -> & Hc & _).
  rewrite Hc. simpl. rewrite lookup_singleton_eq. reflexivity.
Qed.

(** The heap [{1: {"_id": ObjectId(0), "title": "X"}}]. *)
Lemma stored_heap_lookup :
  ({[1%positive := <["_id" := VObjectId (example_id 0)]> {["title" := VStr "X"]}]} : heap)
    !! 1%positive
  = Some (<["_id" := VObjectId (example_id 0)]> {["title" := VStr "X"]}).
Proof. apply lookup_singleton_eq. Qed.

Lemma text_id_heap_lookup :
  ({[1%positive := text_id_record]} : heap) !! 1%positive = Some text_id_record.
Proof. apply lookup_singleton_eq. Qed.

(** C4, as stated, fails in its last clause: for the record
    [{"_id": "abc", "id": "z"}], whose [_id] is a text and not a native
    id, [serialize_doc] returns a record that holds both [_id] and
    [id]. *)
Lemma serialize_doc_keeps_text_id :
  exists r h' out,
    serialize_doc (PyDict 1%positive) {[1%positive := text_id_record]}
      = Some (PyDict r, h')
    /\ h' !! r = Some out
    /\ out !! "_id" = Some (VStr "abc")
    /\ out !! "id" = Some (VStr "z").
Proof.
  assert (Hnz : size text_id_record <> 0%nat).
  { intros Hz. apply size_zero_empty in Hz.
    pose proof (f_equal (lookup "_id") Hz) as Hl.
    unfold text_id_record in Hl. rewrite lookup_insert_eq, lookup_empty in Hl.
    discriminate. }
  eexists. eexists. exists text_id_record.
  split; [exact (serialize_doc_dict _ _ _ text_id_heap_lookup Hnz)|].
  split.
  - rewrite lookup_insert_eq. f_equal.
  - split; [apply lookup_insert_eq|].
    unfold text_id_record. rewrite lookup_insert_ne by done. apply lookup_singleton_eq.
Qed.

(** C4, amended: for every store record that holds a native id under
    the reserved key [_id], [serialize_doc] returns a record in which the
    reserved key is absent and the field [id] holds the string form of
    the id, every other field kept; and an output record holds both
    [_id] and [id] only when it is the input record with its items
    unchanged, the input held both, and its [_id] is not a native id. *)
Theorem serialize_doc_replaces_native_id (h : heap) (l : loc) (d : dict) :
  h !! l = Some d ->
  (forall oid, d !! "_id" = Some (VObjectId oid) ->
     exists r h' out,
       serialize_doc (PyDict l) h = Some (PyDict r, h')
       /\ h' !! r = Some out
       /\ out !! "_id" = None
       /\ out !! "id" = Some (VStr (ObjectId_str oid))
       /\ ~ (is_Some (out !! "_id") /\ is_Some (out !! "id"))
       /\ (forall key, key <> "_id" -> key <> "id" -> out !! key = d !! key))
  /\ (forall out h' shaped,
        serialize_doc (PyDict l) h = Some (out, h') ->
        contents h' out = Some shaped ->
        is_Some (shaped !! "_id") -> is_Some (shaped !! "id") ->
        shaped = d /\ (forall oid, d !! "_id" <> Some (VObjectId oid))).
Proof.
  intros Hl. split.
  - intros oid Hid.
    assert (Hnz : size d <> 0%nat).
    { intros Hz. apply size_zero_empty in Hz. subst d.
      rewrite lookup_empty in Hid. discriminate. }
    exists (fresh (dom h)), (<[fresh (dom h) := reshaped d]> h), (reshaped d).
    split; [exact (serialize_doc_dict h l d Hl Hnz)|].
    split; [apply lookup_insert_eq|].
    rewrite (reshaped_native_id d oid Hid).
    assert (Hgone :
      delete "_id" (<["id" := VStr (ObjectId_str oid)]> d) !! "_id" = None)
      by apply lookup_delete_eq.
    split; [exact Hgone|]. split.
    + rewrite lookup_delete_ne by done. apply lookup_insert_eq.
    + split.
      * rewrite Hgone. intros [[x Hx] _]. discriminate.
      * intros key H1 H2. rewrite lookup_delete_ne by done.
        rewrite lookup_insert_ne by done. reflexivity.
  - intros out h' shaped Hrun Hc [x Hx] _.
    assert (Hlive : live h (PyDict l)) by (simpl; eauto).
    destruct (serialize_doc_returns h (PyDict l) Hlive) as (out' & h'' & Hrun' & Hc' & _).
    rewrite Hrun in Hrun'. inversion Hrun'. subst out' h''.
    rewrite Hc' in Hc. simpl in Hc. rewrite Hl in Hc. simpl in Hc.
    inversion Hc. subst shaped.
    assert (Hnot : forall oid, d !! "_id" <> Some (VObjectId oid)).
    { intros oid Hid. rewrite (reshaped_native_id d oid Hid) in Hx.
      rewrite lookup_delete_eq in Hx. discriminate. }
    split; [apply reshaped_no_native_id; exact Hnot | exact Hnot].
Qed.

Lemma serialize_doc_replaces_native_id_witness :
  exists r h' out,
    serialize_doc (PyDict 1%positive)
      {[1%positive := <["_id" := VObjectId (example_id 0)]> {["title" := VStr "X"]}]}
      = Some (PyDict r, h')
    /\ h' !! r = Some out
    /\ out !! "_id" = None
    /\ out !! "id" = Some (VStr "000000000000000000000000")
    /\ out !! "title" = Some (VStr "X").
Proof.
  destruct (serialize_doc_replaces_native_id _ 1%positive _ stored_heap_lookup)
    as [Hnative _].
  destruct (Hnative (example_id 0) (lookup_insert_eq _ _ _))
    as (r & h' & out & Hrun & Hout & Hgone & Hid & _ & Hkeep).
  exists r, h', out. repeat split; try assumption.
  rewrite (Hkeep "title") by done.
  rewrite lookup_insert_ne by done. apply lookup_singleton_eq.
Defined.

(** For a record whose reserved key is absent or holds a native id, the
    returned record never holds the reserved key. *)
Lemma serialize_doc_drops_reserved_key (h h' : heap) (l : loc) (d : dict) (out : pyobj) :
  h !! l = Some d ->
  (d !! "_id" = None \/ exists oid, d !! "_id" = Some (VObjectId oid)) ->
  serialize_doc (PyDict l) h = Some (out, h') ->
  exists shaped, contents h' out = Some shaped /\ shaped !! "_id" = None.
Proof.
  intros Hl Hid Hrun.
  assert (Hlive : live h (PyDict l)) by (simpl; eauto).
  destruct (serialize_doc_returns h (PyDict l) Hlive) as (out' & h'' & Hrun' & Hc & _).
  rewrite Hrun in Hrun'. inversion Hrun'. subst out' h''.
  exists (reshaped d). split.
  - rewrite Hc. simpl. rewrite Hl. reflexivity.
  - destruct Hid as [Hnone | [oid Hoid]].
    + rewrite reshaped_no_native_id; [exact Hnone|]. intros oid. congruence.
    + rewrite (reshaped_native_id d oid Hoid). apply lookup_delete_eq.
Qed.

(** C5: [serialize_doc] is idempotent: applied to its own result it
    returns a record equal to that result; and a record with no native id
    under the reserved key is returned with the items it had. *)
Theorem serialize_doc_idempotent (h : heap) (doc : pyobj) :
  live h doc ->
  exists out1 h1 out2 h2,
    serialize_doc doc h = Some (out1, h1)
    /\ serialize_doc out1 h1 = Some (out2, h2)
    /\ contents h2 out2 = contents h1 out1
    /\ ((forall d oid, contents h doc = Some d -> d !! "_id" <> Some (VObjectId oid)) ->
        contents h1 out1 = contents h doc).
Proof.
  intros Hlive.
  destruct (serialize_doc_returns h doc Hlive) as (out1 & h1 & Hrun1 & Hc1 & _).
  pose proof (serialize_doc_live h h1 doc out1 Hlive Hrun1) as Hlive1.
  destruct (serialize_doc_returns h1 out1 Hlive1) as (out2 & h2 & Hrun2 & Hc2 & _).
  exists out1, h1, out2, h2. repeat split; try assumption.
  - rewrite Hc2, Hc1. destruct (contents h doc) as [d|]; simpl; [|reflexivity].
    rewrite reshaped_idempotent. reflexivity.
  - intros Hno. rewrite Hc1. destruct (contents h doc) as [d|]; simpl; [|reflexivity].
    rewrite reshaped_no_native_id; [reflexivity|].
    intros oid. apply (Hno d oid). reflexivity.
Qed.

Lemma serialize_doc_idempotent_witness :
  exists out1 h1 out2 h2,
    serialize_doc (PyDict 1%positive)
      {[1%positive := <["_id" := VObjectId (example_id 0)]> {["title" := VStr "X"]}]}
      = Some (out1, h1)
    /\ serialize_doc out1 h1 = Some (out2, h2)
    /\ contents h2 out2 = contents h1 out1.
Proof.
  assert (Hlive : live
    {[1%positive := <["_id" := VObjectId (example_id 0)]> {["title" := VStr "X"]}]}
    (PyDict 1%positive)).
  { simpl. rewrite stored_heap_lookup. eauto. }
  destruct (serialize_doc_idempotent _ _ Hlive)
    as (out1 & h1 & out2 & h2 & H1 & H2 & H3 & _).
  exists out1, h1, out2, h2. auto.
Defined.

(** C6: [serialize_doc] never mutates its input: after the call every
    dictionary that existed before the call, the input among them, has
    exactly the items it had; the reshaping happens on a copy. *)
Theorem serialize_doc_preserves_input (h : heap) (doc : pyobj) :
  live h doc ->
  exists out h',
    serialize_doc doc h = Some (out, h')
    /\ contents h' doc = contents h doc
    /\ (forall l d, h !! l = Some d -> h' !! l = Some d).
Proof.
  intros Hlive.
  destruct (serialize_doc_returns h doc Hlive) as (out & h' & Hrun & _ & Hframe).
  exists out, h'. split; [exact Hrun|]. split; [|exact Hframe].
  destruct doc as [|l]; simpl; [reflexivity|].
  destruct Hlive as [d Hd]. rewrite Hd. apply Hframe. exact Hd.
Qed.

Lemma serialize_doc_preserves_input_witness :
  exists out h',
    serialize_doc (PyDict 1%positive)
      {[1%positive := <["_id" := VObjectId (example_id 0)]> {["title" := VStr "X"]}]}
      = Some (out, h')
    /\ h' !! 1%positive
       = Some (<["_id" := VObjectId (example_id 0)]> {["title" := VStr "X"]}).
Proof.
  assert (Hlive : live
    {[1%positive := <["_id" := VObjectId (example_id 0)]> {["title" := VStr "X"]}]}
    (PyDict 1%positive)).
  { simpl. rewrite stored_heap_lookup. eauto. }
  destruct (serialize_doc_preserves_input _ _ Hlive) as (out & h' & Hrun & Hin & _).
  exists out, h'. split; [exact Hrun|].
  simpl in Hin. rewrite Hin. apply stored_heap_lookup.
Defined.

(** ** Identifiers: reading and printing *)

Lemma hex_value_digit (d : N) : (d < 16)%N -> hex_value (hex_digit d) = Some d.
Proof.
  intros H. destruct d as [|p]; [reflexivity|].
  do 4 (destruct p as [p|p|]; try reflexivity); lia.
Qed.

Lemma hex_value_bounds (c : ascii) (d : N) :
  hex_value c = Some d ->
  (d < 16)%N /\ is_space c = false /\ is_continuation c = false.
Proof.
  destruct c as [[|] [|] [|] [|] [|] [|] [|] [|]];
    intros H; try discriminate H; inversion H; subst d;
    repeat split; reflexivity.
Qed.




Lemma fromhex_hexlify (data : list byte) : fromhex (hexlify data) = Some data.
Proof.
  induction data as [|b rest IH]; [reflexivity|].
  pose proof (Byte.to_N_bounded b) as Hb.
  assert (Htop : (Byte.to_N b / 16 < 16)%N)
    by (apply N.Div0.div_lt_upper_bound; lia).
  assert (Hbot : (Byte.to_N b mod 16 < 16)%N) by (apply N.mod_lt; lia).
  pose proof (hex_value_digit _ Htop) as Hvt.
  pose proof (hex_value_digit _ Hbot) as Hvb.
  destruct (hex_value_bounds _ _ Hvt) as (_ & Hsp & _).
  simpl. rewrite Hsp, Hvt, Hvb, IH.
  replace (Byte.to_N b / 16 * 16 + Byte.to_N b mod 16)%N with (Byte.to_N b)
    by (rewrite (N.div_mod (Byte.to_N b) 16) at 1 by lia; lia).
  rewrite Byte.of_to_N. reflexivity.
Qed.

Lemma str_len_hexlify (data : list byte) :
  str_len (hexlify data) = (2 * length data)%nat.
Proof.
  induction data as [|b rest IH]; [reflexivity|].
  pose proof (Byte.to_N_bounded b) as Hb.
  assert (Htop : (Byte.to_N b / 16 < 16)%N)
    by (apply N.Div0.div_lt_upper_bound; lia).
  assert (Hbot : (Byte.to_N b mod 16 < 16)%N) by (apply N.mod_lt; lia).
  destruct (hex_value_bounds _ _ (hex_value_digit _ Htop)) as (_ & _ & Hct).
  destruct (hex_value_bounds _ _ (hex_value_digit _ Hbot)) as (_ & _ & Hcb).
  simpl. rewrite Hct, Hcb, IH. simpl. lia.
Qed.

(** Reading back the printed form of an identifier of twelve bytes
    gives the identifier. *)
Lemma ObjectId_of_str_str (oid : ObjectId) :
  length (oid_binary oid) = 12%nat ->
  ObjectId_of_str (ObjectId_str oid) = Some oid.
Proof.
  intros Hlen. unfold ObjectId_of_str, ObjectId_str.
  rewrite str_len_hexlify, Hlen. simpl (_ =? _)%nat. cbv iota.
  rewrite fromhex_hexlify. destruct oid. reflexivity.
Qed.



(** ** The store *)

Lemma driver_answers {A} (call : StoreCall) (op : Database -> A * Database)
    (w : World) (d : Database) :
  db w = Some d -> fault d = None ->
  driver call op w =
    (Return (op d).1,
     {| db := Some (op d).2; environ := environ w;
        calls := (calls w ++ [call])%list |}).
Proof.
  intros Hdb Hf. unfold driver. rewrite Hdb, Hf. destruct (op d). reflexivity.
Qed.

Lemma driver_records {A} (call : StoreCall) (op : Database -> A * Database)
    (w : World) (d : Database) :
  db w = Some d ->
  calls (driver call op w).2 = (calls w ++ [call])%list.
Proof.
  intros Hdb. unfold driver. rewrite Hdb.
  destruct (fault d); [reflexivity|]. destruct (op d). reflexivity.
Qed.

Lemma filter_FEmpty (d : Database) (l : list dict) :
  List.filter (matches d FEmpty) l = l.
Proof. induction l as [|x l IH]; simpl; [reflexivity | by rewrite IH]. Qed.

Lemma filter_FId_none (d : Database) (oid : ObjectId) (l : list dict) :
  Forall (fun r => ~ has_id oid r) l ->
  List.filter (matches d (FId oid)) l = [].
Proof.
  induction 1 as [|r l Hr _ IH]; simpl; [reflexivity|].
  rewrite IH. unfold has_id in Hr.
  destruct (r !! "_id") as [[]|]; try reflexivity.
  case_bool_decide; [subst; contradiction | reflexivity].
Qed.

Lemma db_is_None_connected (w : World) (d : Database) :
  db w = Some d -> db_is_None w = (Return false, w).
Proof. intros H. unfold db_is_None. rewrite H. reflexivity. Qed.

Lemma db_is_None_offline (w : World) :
  db w = None -> db_is_None w = (Return true, w).
Proof. intros H. unfold db_is_None. rewrite H. reflexivity. Qed.

(** A handler that starts with the guard [if db is None: raise ...] stops
    there when the handle is absent. *)
Ltac stop_at_guard Hdb :=
  unfold mbind, App_bind; rewrite (db_is_None_offline _ Hdb); reflexivity.

(** ** Listing *)

Lemma list_products_connected (limit : Z) (q : option string) (w : World) (d : Database) :
  db w = Some d ->
  list_products limit q w =
    match get_documents "product" (build_filter q) (effective_limit limit) w with
    | (Return docs, w') => (Return (serialize <$> docs), w')
    | (Raise e, w') => (Raise e, w')
    end.
Proof.
  intros Hdb. unfold list_products, mbind, App_bind.
  rewrite (db_is_None_connected w d Hdb). simpl.
  destruct (get_documents _ _ _ w) as [[docs|e] w']; reflexivity.
Qed.

Lemma list_products_calls (limit : Z) (q : option string) (w : World) (d : Database) :
  db w = Some d ->
  calls (list_products limit q w).2 =
    (calls w ++ [Find "product" (build_filter q) (effective_limit limit)])%list.
Proof.
  intros Hdb. rewrite (list_products_connected limit q w d Hdb).
  pose proof (driver_records (Find "product" (build_filter q) (effective_limit limit))
    (fun d => (take (Z.to_nat (effective_limit limit))
                 (List.filter (matches d (build_filter q)) (collection d "product")), d))
    w d Hdb) as Hc.
  unfold get_documents, find_many.
  destruct (driver _ _ w) as [[docs|e] w']; exact Hc.
Qed.

Lemma list_products_healthy (limit : Z) (q : option string) (w : World) (d : Database) :
  db w = Some d -> fault d = None ->
  (list_products limit q w).1 =
    Return (serialize <$> take (Z.to_nat (effective_limit limit))
              (List.filter (matches d (build_filter q)) (collection d "product"))).
Proof.
  intros Hdb Hf. rewrite (list_products_connected limit q w d Hdb).
  unfold get_documents, find_many. rewrite (driver_answers _ _ w d Hdb Hf).
  reflexivity.
Qed.

(** C2, as stated, fails: a caller who requests the limit 0 has 0 passed
    to the store, which is below the range [[1,100]]: the limit is capped
    at 100 and not raised. *)
Lemma list_products_limit_not_raised :
  find_limits (calls (list_products 0 None (connected empty_store)).2) = [0]
  /\ ~ Forall limit_in_range
         (find_limits (calls (list_products 0 None (connected empty_store)).2)).
Proof.
  assert (E : find_limits (calls (list_products 0 None (connected empty_store)).2) = [0]).
  { rewrite (list_products_calls 0 None (connected empty_store) empty_store eq_refl).
    reflexivity. }
  split; [exact E|]. rewrite E. intros H.
  apply Forall_cons in H as [[H _] _]. lia.
Qed.

(** C2, amended: for every requested limit the list operation passes
    [min(limit, 100)] to the store; this effective limit is at most 100
    and is the requested one when that is at most 100 (a request below 1
    is passed on as it is), and a caller who requests at least 1 receives
    at most [min(limit, 100)] records, so at most 100. *)
Theorem list_products_limit_capped
    (limit : Z) (q : option string) (w : World) (d : Database) :
  db w = Some d ->
  calls (list_products limit q w).2 =
    (calls w ++ [Find "product" (build_filter q) (Z.min limit 100)])%list
  /\ Z.min limit 100 <= 100
  /\ (limit <= 100 -> Z.min limit 100 = limit)
  /\ (forall docs, 1 <= limit -> (list_products limit q w).1 = Return docs ->
      Z.of_nat (length docs) <= Z.min limit 100 <= 100).
Proof.
  intros Hdb. split; [exact (list_products_calls limit q w d Hdb)|].
  split; [lia|]. split; [lia|].
  intros docs Hpos Hret.
  rewrite (list_products_connected limit q w d Hdb) in Hret.
  unfold get_documents, find_many, driver in Hret. rewrite Hdb in Hret.
  destruct (fault d); [discriminate|]. simpl in Hret.
  inversion Hret. subst docs. rewrite length_fmap, length_take.
  unfold effective_limit. lia.
Qed.

Lemma list_products_limit_capped_witness :
  calls (list_products 500 None (connected one_product_store)).2 =
    [Find "product" FEmpty 100]
  /\ (forall docs,
        (list_products 500 None (connected one_product_store)).1 = Return docs ->
        Z.of_nat (length docs) <= 100).
Proof.
  destruct (list_products_limit_capped 500 None (connected one_product_store)
              one_product_store eq_refl) as (Hcalls & _ & _ & Hlen).
  split; [exact Hcalls|].
  intros docs Hret. apply (Hlen docs); [lia | exact Hret].
Defined.

(** C10: an empty filter string is treated as no filter: for [q] the
    empty string no title filter is built, the operation does what it
    does without [q], and for a limit of at least one a working store
    returns the records of the collection whatever their title, up to
    the limit. *)
Theorem list_products_empty_q (limit : Z) (w : World) :
  build_filter (Some "") = FEmpty
  /\ list_products limit (Some "") w = list_products limit None w
  /\ (forall d, db w = Some d -> fault d = None -> 1 <= limit ->
      (list_products limit (Some "") w).1 =
        Return (serialize <$> take (Z.to_nat (effective_limit limit))
                  (collection d "product"))).
Proof.
  split; [reflexivity|]. split; [reflexivity|].
  intros d Hdb Hf _. rewrite (list_products_healthy limit (Some "") w d Hdb Hf).
  simpl. rewrite filter_FEmpty. reflexivity.
Qed.

Lemma list_products_empty_q_witness :
  (list_products 50 (Some "") (connected one_product_store)).1 =
    Return [ <["id" := VStr "000000000000000000000000"]> {["title" := VStr "X"]} ].
Proof.
  destruct (list_products_empty_q 50 (connected one_product_store)) as (_ & _ & H).
  rewrite (H one_product_store eq_refl eq_refl); [|lia].
  vm_compute. reflexivity.
Defined.

(** ** Lookup by id *)

Lemma get_product_connected (product_id : string) (w : World) (d : Database) :
  db w = Some d ->
  get_product product_id w =
    match ObjectId_of_str product_id with
    | None => (Raise (HTTPException 400 "Invalid product id"), w)
    | Some oid =>
        match find_one "product" (FId oid) w with
        | (Return (Some doc), w') =>
            if Nat.eqb (size doc) 0
            then (Raise (HTTPException 404 "Product not found"), w')
            else (Return (serialize doc), w')
        | (Return None, w') => (Raise (HTTPException 404 "Product not found"), w')
        | (Raise e, w') => (Raise e, w')
        end
    end.
Proof.
  intros Hdb. unfold get_product, mbind, App_bind.
  rewrite (db_is_None_connected w d Hdb). simpl.
  unfold try_except, new_ObjectId.
  destruct (ObjectId_of_str product_id) as [oid|]; simpl; [|reflexivity].
  destruct (find_one "product" (FId oid) w) as [[[doc|]|e] w']; try reflexivity.
  simpl. destruct (Nat.eqb (size doc) 0); reflexivity.
Qed.

Lemma get_product_offline (product_id : string) (w : World) :
  db w = None ->
  get_product product_id w = (Raise (HTTPException 500 "Database not available"), w).
Proof. intros Hdb. unfold get_product. stop_at_guard Hdb. Qed.


Lemma an_id_of_24_digits :
  ObjectId_of_str "0000000000000000000000ff" = Some (example_id 255).
Proof. reflexivity. Qed.




(** ** Seeding *)

Lemma count_documents_all (w : World) (d : Database) :
  db w = Some d -> fault d = None ->
  count_documents "product" FEmpty w =
    (Return (Z.of_nat (length (collection d "product"))),
     {| db := Some d; environ := environ w;
        calls := (calls w ++ [CountDocuments "product" FEmpty])%list |}).
Proof.
  intros Hdb Hf. unfold count_documents.
  rewrite (driver_answers _ _ w d Hdb Hf). simpl.
  rewrite filter_FEmpty. reflexivity.
Qed.

Lemma create_document_inserts (data : dict) (w : World) (d : Database) :
  db w = Some d -> fault d = None ->
  exists d',
    create_document "product" data w =
      (Return (ObjectId_str (next_id d)),
       {| db := Some d'; environ := environ w;
          calls := (calls w ++ [InsertOne "product" data])%list |})
    /\ fault d' = None
    /\ collection d' "product" =
         (collection d "product" ++ [<["_id" := VObjectId (next_id d)]> data])%list.
Proof.
  intros Hdb Hf. eexists. split; [|split].
  - unfold create_document, insert_one, mbind, App_bind.
    rewrite (driver_answers _ _ w d Hdb Hf). reflexivity.
  - exact Hf.
  - unfold collection at 1. simpl. rewrite lookup_insert_eq. reflexivity.
Qed.

Lemma create_each_inserts (items : list dict) (w : World) (d : Database) :
  db w = Some d -> fault d = None ->
  exists d',
    create_each items w =
      (Return tt,
       {| db := Some d'; environ := environ w;
          calls := (calls w ++ (InsertOne "product" <$> items))%list |})
    /\ fault d' = None
    /\ length (collection d' "product") =
         (length (collection d "product") + length items)%nat.
Proof.
  revert w d. induction items as [|s rest IH]; intros w d Hdb Hf.
  - exists d. simpl. rewrite app_nil_r, Nat.add_0_r.
    split; [|auto]. unfold mret, App_ret. destruct w; simpl in *. by subst.
  - destruct (create_document_inserts s w d Hdb Hf) as (d1 & Hrun1 & Hf1 & Hc1).
    destruct (IH {| db := Some d1; environ := environ w;
                    calls := (calls w ++ [InsertOne "product" s])%list |}
                 d1 eq_refl Hf1) as (d' & Hrun & Hf' & Hlen).
    exists d'. split; [|split; [exact Hf'|]].
    + simpl. unfold mbind, App_bind. rewrite Hrun1, Hrun. simpl.
      rewrite <- app_assoc. reflexivity.
    + rewrite Hlen, Hc1, length_app. simpl. lia.
Qed.

Lemma seed_products_connected (w : World) (d : Database) :
  db w = Some d ->
  seed_products w =
    match count_documents "product" FEmpty w with
    | (Return existing, w1) =>
        if existing >? 0 then
          (Return (<["status" := VStr "ok"]>
                  (<["message" := VStr "Products already exist"]>
                  (<["count" := VInt existing]> ∅))), w1)
        else
          match create_each samples w1 with
          | (Return _, w2) =>
              match count_documents "product" FEmpty w2 with
              | (Return count, w3) =>
                  (Return (<["status" := VStr "ok"]>
                          (<["inserted" := VInt (Z.of_nat (length samples))]>
                          (<["count" := VInt count]> ∅))), w3)
              | (Raise e, w3) => (Raise e, w3)
              end
          | (Raise e, w2) => (Raise e, w2)
          end
    | (Raise e, w1) => (Raise e, w1)
    end.
Proof.
  intros Hdb. unfold seed_products, mbind, App_bind.
  rewrite (db_is_None_connected w d Hdb). simpl.
  destruct (count_documents "product" FEmpty w) as [[existing|e] w1]; [|reflexivity].
  destruct (existing >? 0); [reflexivity|].
  destruct (create_each samples w1) as [[[]|e] w2]; [|reflexivity].
  destruct (count_documents "product" FEmpty w2) as [[count|e] w3]; reflexivity.
Qed.

(** C8: on a collection that already holds a record, [seed_products]
    performs no insert (the store is left as it was, and the only store
    operation is the count) and reports the existing count; on an empty
    collection it inserts every sample and reports [inserted] and
    [count] both equal to the number of samples. *)
Theorem seed_products_if_empty (w : World) (d : Database) :
  db w = Some d -> fault d = None ->
  (collection d "product" <> [] ->
     seed_products w =
       (Return (<["status" := VStr "ok"]>
               (<["message" := VStr "Products already exist"]>
               (<["count" := VInt (Z.of_nat (length (collection d "product")))]> ∅))),
        {| db := Some d; environ := environ w;
           calls := (calls w ++ [CountDocuments "product" FEmpty])%list |}))
  /\ (collection d "product" = [] ->
      exists d',
        seed_products w =
          (Return (<["status" := VStr "ok"]>
                  (<["inserted" := VInt (Z.of_nat (length samples))]>
                  (<["count" := VInt (Z.of_nat (length samples))]> ∅))),
           {| db := Some d'; environ := environ w;
              calls := (calls w ++ [CountDocuments "product" FEmpty]
                          ++ (InsertOne "product" <$> samples)
                          ++ [CountDocuments "product" FEmpty])%list |})
        /\ length (collection d' "product") = length samples).
Proof.
  intros Hdb Hf. rewrite (seed_products_connected w d Hdb).
  rewrite (count_documents_all w d Hdb Hf). split.
  - intros Hne.
    destruct (collection d "product") as [|r l] eqn:E; [contradiction|].
    replace (Z.of_nat (length (r :: l)) >? 0) with true; [reflexivity|].
    symmetry. apply Z.gtb_lt. simpl length. lia.
  - intros Hempty. rewrite Hempty. simpl length. simpl (_ >? _).
    cbv iota.
    destruct (create_each_inserts samples
      {| db := Some d; environ := environ w;
         calls := (calls w ++ [CountDocuments "product" FEmpty])%list |}
      d eq_refl Hf) as (d' & Hrun & Hf' & Hlen).
    rewrite Hempty in Hlen. change (length (collection d' "product") = length samples) in Hlen.
    exists d'. split; [|exact Hlen].
    rewrite Hrun. cbn [environ calls].
    erewrite (count_documents_all _ d'); [|reflexivity|exact Hf'].
    rewrite Hlen. cbn [environ calls].
    rewrite <- !app_assoc. reflexivity.
Qed.

Lemma seed_products_if_empty_witness :
  (seed_products (connected one_product_store)).1 =
     Return (<["status" := VStr "ok"]>
            (<["message" := VStr "Products already exist"]>
            (<["count" := VInt 1]> ∅)))
  /\ exists d',
       db (seed_products (connected empty_store)).2 = Some d'
       /\ (seed_products (connected empty_store)).1 =
            Return (<["status" := VStr "ok"]>
                   (<["inserted" := VInt 3]> (<["count" := VInt 3]> ∅)))
       /\ length (collection d' "product") = 3%nat.
Proof.
  split.
  - destruct (seed_products_if_empty (connected one_product_store) one_product_store
                eq_refl eq_refl) as [Hfull _].
    rewrite Hfull; [reflexivity|]. vm_compute. discriminate.
  - destruct (seed_products_if_empty (connected empty_store) empty_store
                eq_refl eq_refl) as [_ Hempty].
    destruct (Hempty eq_refl) as (d' & Hrun & Hlen).
    exists d'. rewrite Hrun. auto.
Defined.

(** ** Without a store handle *)

(** A [try] whose handler ends normally ends normally. *)
Lemma try_block_ends_normally (body : Block) (handler : exn -> Block) :
  (forall e response w, exists response' w',
      handler e response w = ((None, response'), w')) ->
  forall response w, exists response' w',
    try_block body handler response w = ((None, response'), w').
Proof.
  intros Hh response w. unfold try_block.
  destruct (body response w) as [[[e|] response'] w']; [apply Hh | eauto].
Qed.

Lemma test_database_offline (w : World) :
  db w = None ->
  test_database w =
    (Return (<["database" := VStr "⚠️ Available but not initialized"]> initial_response), w).
Proof.
  intros Hdb. unfold test_database, try_block, call_then.
  rewrite (db_is_None_offline w Hdb). reflexivity.
Qed.

Lemma test_database_returns (w : World) :
  exists response w', test_database w = (Return response, w').
Proof.
  unfold test_database.
  match goal with
  | |- context [try_block ?b ?h] =>
      destruct (try_block_ends_normally b h) with (response := initial_response) (w := w)
        as (response & w' & ->)
  end.
  - intros e r w0. unfold assign. eauto.
  - eauto.
Qed.

(** C9: with the store handle absent every catalog operation (list,
    create, get by id, seed) fails with the error "Database not
    available" and leaves the world as it was, no store operation
    performed; the diagnostic endpoint never fails, whatever the state of
    the store, and with the handle absent it returns a response whose
    body reports that the store is not initialized and not connected. *)
Theorem handlers_without_handle (w : World) :
  (exists response w', test_database w = (Return response, w'))
  /\ (db w = None ->
      (forall limit q,
         list_products limit q w =
           (Raise (HTTPException 500 "Database not available"), w))
      /\ (forall product,
            create_product product w =
              (Raise (HTTPException 500 "Database not available"), w))
      /\ (forall product_id,
            get_product product_id w =
              (Raise (HTTPException 500 "Database not available"), w))
      /\ seed_products w = (Raise (HTTPException 500 "Database not available"), w)
      /\ exists response,
           test_database w = (Return response, w)
           /\ response !! "database" = Some (VStr "⚠️ Available but not initialized")
           /\ response !! "connection_status" = Some (VStr "Not Connected")
           /\ response !! "collections" = Some (VList [])).
Proof.
  split; [apply test_database_returns|].
  intros Hdb. repeat split.
  - intros limit q. unfold list_products. stop_at_guard Hdb.
  - intros product. unfold create_product. stop_at_guard Hdb.
  - intros product_id. apply get_product_offline. exact Hdb.
  - unfold seed_products. stop_at_guard Hdb.
  - eexists. split; [apply test_database_offline; exact Hdb|].
    split; [apply lookup_insert_eq|].
    split; (rewrite lookup_insert_ne by done); reflexivity.
Qed.

Lemma handlers_without_handle_witness :
  list_products 50 None offline =
    (Raise (HTTPException 500 "Database not available"), offline)
  /\ seed_products offline =
       (Raise (HTTPException 500 "Database not available"), offline)
  /\ exists response,
       test_database offline = (Return response, offline)
       /\ response !! "database" = Some (VStr "⚠️ Available but not initialized").
Proof.
  destruct (handlers_without_handle offline) as [_ H].
  destruct (H eq_refl) as (Hlist & _ & _ & Hseed & response & Htest & Hbody & _).
  split; [apply Hlist|]. split; [exact Hseed|].
  exists response. auto.
Defined.

(** ** Scenarios *)

Example ObjectId_str_255 :
  ObjectId_str (example_id 255) = "0000000000000000000000ff".
Proof. reflexivity. Qed.

Example ObjectId_of_str_upper_case :
  ObjectId_of_str "0000000000000000000000FF" = Some (example_id 255).
Proof. reflexivity. Qed.

Example ObjectId_of_str_not_hex :
  ObjectId_of_str "00000000000000000000000g" = None.
Proof. reflexivity. Qed.

Example validate_create_minimal (lax : Lax) :
  validate_create lax minimal_payload = inr minimal_product.
Proof. reflexivity. Qed.

Example validate_create_negative_price :
  validate_create no_coercion
    (<["title" := JStr "X"]> (<["price" := JInt (-1)]> {["rating" := JInt 6]}))
  = inl [("price", greater_than_equal); ("rating", less_than_equal)].
Proof. vm_compute. reflexivity. Qed.

Example validate_create_null_rating :
  validate_create no_coercion
    (<["title" := JStr "X"]> (<["price" := JFloat 0%float]> {["rating" := JNull]}))
  = inr {| title := "X"; description := None; price := 0%float; category := "perfume";
           in_stock := true; image := None; rating := None; notes := Some [] |}.
Proof. vm_compute. reflexivity. Qed.

(** A negative zero is at least zero, and an infinite price passes. *)
Example validate_create_signed_zero :
  accepted no_coercion (<["title" := JStr "X"]> {["price" := JFloat (-0)%float]})
  /\ accepted no_coercion (<["title" := JStr "X"]> {["price" := JFloat infinity]}).
Proof. split; eexists; vm_compute; reflexivity. Qed.

(** An integer beyond the range of the floats is no price. *)
Example validate_create_huge_price :
  validate_create no_coercion
    (<["title" := JStr "X"]> {["price" := JInt (10 ^ 400)]})
  = inl [("price", float_type)].
Proof. vm_compute. reflexivity. Qed.

Example validate_create_ignores_unknown :
  validate_create no_coercion (<["colour" := JStr "red"]> minimal_payload)
  = inr minimal_product.
Proof. vm_compute. reflexivity. Qed.

Example ObjectId_of_str_spaced :
  ObjectId_of_str "00 00 00 00 00 00 00 ff " =
    Some (mkObjectId [x00; x00; x00; x00; x00; x00; x00; xff]).
Proof. reflexivity. Qed.

Example ObjectId_of_str_split_pair :
  ObjectId_of_str "0 0000000000000000000000" = None.
Proof. reflexivity. Qed.

Example str_prefix_characters :
  str_prefix 2 "éab" = "éa" /\ str_len "éab" = 3%nat.
Proof. split; reflexivity. Qed.

(** [POST /products] with [{"title": "X", "price": 10}], then
    [GET /products/{id}] with the id returned. *)
Example create_then_get :
  (create_product minimal_product (connected empty_store)).1 =
    Return "000000000000000000000000"
  /\ (get_product "000000000000000000000000"
        (create_product minimal_product (connected empty_store)).2).1 =
      Return (<["id" := VStr "000000000000000000000000"]> (model_dump minimal_product)).
Proof. split; vm_compute; reflexivity. Qed.

(** [POST /seed] twice on an empty store: the first call inserts the
    three samples, the second inserts nothing; both report three. *)
Example seed_twice :
  (seed_products (connected empty_store)).1 =
    Return (<["status" := VStr "ok"]>
           (<["inserted" := VInt 3]> (<["count" := VInt 3]> ∅)))
  /\ (seed_products (seed_products (connected empty_store)).2).1 =
      Return (<["status" := VStr "ok"]>
             (<["message" := VStr "Products already exist"]>
             (<["count" := VInt 3]> ∅)))
  /\ length (List.filter is_insert
               (calls (seed_products (seed_products (connected empty_store)).2).2))
     = 3%nat.
Proof. repeat split; vm_compute; reflexivity. Qed.

(** [GET /test] on a store whose connection is broken still answers. *)
Example test_database_broken :
  exists response,
    (test_database (connected broken_store)).1 = Return response
    /\ response !! "database" =
         Some (VStr "⚠️ Connected but Error: connection refused")
    /\ response !! "connection_status" = Some (VStr "Not Connected").
Proof. eexists. split; [reflexivity|]. split; vm_compute; reflexivity. Qed.

Example list_products_filters_by_title :
  (list_products 50 (Some "Y") (connected one_product_store)).1 = Return []
  /\ (list_products 50 (Some "X") (connected one_product_store)).1
     = (list_products 50 None (connected one_product_store)).1.
Proof. split; vm_compute; reflexivity. Qed.

(** * Further properties of the code *)

(** ** The record shaper: which object comes back *)

(** X1: [serialize_doc] returns its very argument, and leaves the heap as
    it is, when the argument is [None] or an empty dictionary; for a
    dictionary with items it returns a new object, one that did not
    exist before the call and so is not the argument. *)
Theorem serialize_doc_aliasing (h h' : heap) (doc out : pyobj) :
  live h doc ->
  serialize_doc doc h = Some (out, h') ->
  ((doc = PyNone \/ contents h doc = Some ∅) -> out = doc /\ h' = h)
  /\ (forall d, contents h doc = Some d -> d <> ∅ ->
      exists r, out = PyDict r /\ out <> doc /\ h !! r = None
                /\ h' = <[r := reshaped d]> h).
Proof.
  intros Hlive Hrun. split.
  - intros [-> | Hc].
    + rewrite serialize_doc_None in Hrun. inversion Hrun. auto.
    + destruct doc as [|l]; simpl in Hc; [discriminate|].
      rewrite (serialize_doc_empty h l ∅ Hc (map_size_empty (M:=gmap string))) in Hrun.
      inversion Hrun. auto.
  - intros d Hc Hne. destruct doc as [|l]; simpl in Hc; [discriminate|].
    assert (Hnz : size d <> 0%nat).
    { intros Hz. apply Hne. apply size_zero_empty. exact Hz. }
    rewrite (serialize_doc_dict h l d Hc Hnz) in Hrun. inversion Hrun. subst.
    assert (Hfresh : h !! fresh (dom h) = None).
    { apply not_elem_of_dom. apply is_fresh. }
    exists (fresh (dom h)). repeat split; try assumption.
    intros Heq. inversion Heq as [Hl]. rewrite Hl in Hfresh. congruence.
Qed.

Lemma serialize_doc_aliasing_witness :
  serialize_doc (PyDict 1%positive) {[1%positive := (∅ : dict)]}
    = Some (PyDict 1%positive, {[1%positive := (∅ : dict)]})
  /\ exists r, r <> 1%positive
       /\ serialize_doc (PyDict 1%positive)
            {[1%positive := ({["title" := VStr "X"]} : dict)]}
          = Some (PyDict r,
                  <[r := ({["title" := VStr "X"]} : dict)]>
                    {[1%positive := ({["title" := VStr "X"]} : dict)]}).
Proof.
  split.
  - assert (Hrun : serialize_doc (PyDict 1%positive) {[1%positive := (∅ : dict)]}
             = Some (PyDict 1%positive, {[1%positive := (∅ : dict)]})) by reflexivity.
    assert (Hlive : live {[1%positive := (∅ : dict)]} (PyDict 1%positive)).
    { simpl. rewrite lookup_singleton_eq. eauto. }
    destruct (serialize_doc_aliasing _ _ _ _ Hlive Hrun) as [Hsame _].
    destruct Hsame as [_ _]; [right; apply lookup_singleton_eq | exact Hrun].
  - assert (Hlive : live {[1%positive := ({["title" := VStr "X"]} : dict)]}
                      (PyDict 1%positive)).
    { simpl. rewrite lookup_singleton_eq. eauto. }
    destruct (serialize_doc_returns _ _ Hlive) as (out & h' & Hrun & _).
    destruct (serialize_doc_aliasing _ _ _ _ Hlive Hrun) as [_ Hnew].
    destruct (Hnew {["title" := VStr "X"]}) as (r & -> & Hne & _ & ->).
    + apply lookup_singleton_eq.
    + intros He. pose proof (f_equal (lookup "title") He) as Hl.
      rewrite lookup_singleton_eq, lookup_empty in Hl. discriminate.
    + exists r. split; [congruence|].
      rewrite Hrun. rewrite reshaped_no_native_id; [reflexivity|].
      intros oid. rewrite lookup_singleton_ne by done. discriminate.
Defined.

(** ** Validation: what an accepted product satisfies *)

(** X2: every product [validate_create] accepts satisfies the bounds of
    the schema: its price is at least zero, and its rating, when it is a
    number (given or defaulted), lies in [[0,5]]. *)
Theorem validate_create_invariants (lax : Lax) (p : Payload) (v : ProductIn) :
  validate_create lax p = inr v ->
  meets_ge 0 (price v) = true
  /\ (forall r, rating v = Some r -> meets_ge 0 r = true /\ meets_le 5 r = true).
Proof.
  intros Hv. apply validate_create_inr in Hv as (_ & _ & Hx & _ & _ & _ & Hr & _).
  apply price_field_inr in Hx as (x & _ & _ & Hge). split; [exact Hge|].
  apply rating_field_inr in Hr as [Hg Hb]. unfold given_or_default in Hg.
  intros r Hrating. destruct (p !! "rating") as [x'|] eqn:Hp.
  - apply (Hb x' r eq_refl Hrating).
  - rewrite Hg in Hrating. inversion Hrating. subst r. split; reflexivity.
Qed.

Lemma validate_create_invariants_witness :
  meets_ge 0 (price minimal_product) = true
  /\ (forall r, rating minimal_product = Some r ->
      meets_ge 0 r = true /\ meets_le 5 r = true).
Proof.
  apply (validate_create_invariants no_coercion minimal_payload minimal_product).
  reflexivity.
Defined.

(** ** Creating and looking up *)

Lemma model_dump_no_reserved_key (product : ProductIn) :
  model_dump product !! "_id" = None /\ model_dump product !! "id" = None.
Proof.
  unfold model_dump. split; repeat (rewrite lookup_insert_ne by done); apply lookup_empty.
Qed.

Lemma insert_one_effect (data : dict) (w : World) (d : Database) :
  db w = Some d -> fault d = None ->
  exists d',
    insert_one "product" data w =
      (Return (next_id d),
       {| db := Some d'; environ := environ w;
          calls := (calls w ++ [InsertOne "product" data])%list |})
    /\ collection d' "product" =
         (collection d "product" ++ [<["_id" := VObjectId (next_id d)]> data])%list
    /\ issued d' = S (issued d)
    /\ oid_source d' = oid_source d
    /\ fault d' = None
    /\ regex_search d' = regex_search d
    /\ (forall name, name <> "product" -> collection d' name = collection d name).
Proof.
  intros Hdb Hf. eexists. split; [|split; [|split; [|split; [|split; [|split]]]]].
  - unfold insert_one. rewrite (driver_answers _ _ w d Hdb Hf). reflexivity.
  - unfold collection at 1. simpl. rewrite lookup_insert_eq. reflexivity.
  - reflexivity.
  - reflexivity.
  - exact Hf.
  - reflexivity.
  - intros name Hne. unfold collection. simpl.
    rewrite lookup_insert_ne by done. reflexivity.
Qed.

Lemma create_product_connected (product : ProductIn) (w : World) (d : Database) :
  db w = Some d ->
  create_product product w =
    match insert_one "product" (model_dump product) w with
    | (Return oid, w') => (Return (ObjectId_str oid), w')
    | (Raise e, w') => (Raise e, w')
    end.
Proof.
  intros Hdb. unfold create_product, create_document, mbind, App_bind.
  rewrite (db_is_None_connected w d Hdb). simpl.
  destruct (insert_one "product" (model_dump product) w) as [[oid|e] w']; reflexivity.
Qed.

(** X3: on a working store [create_product] performs one store
    operation, the insert of [model_dump(product)]: the collection gets
    one more record at its end, the dump under the next identifier of the
    store; the records it held and the other collections stay as they
    were; and the string returned is the string form of that identifier. *)
Theorem create_product_appends (product : ProductIn) (w : World) (d : Database) :
  db w = Some d -> fault d = None ->
  exists d',
    create_product product w =
      (Return (ObjectId_str (next_id d)),
       {| db := Some d'; environ := environ w;
          calls := (calls w ++ [InsertOne "product" (model_dump product)])%list |})
    /\ collection d' "product" =
         (collection d "product"
            ++ [<["_id" := VObjectId (next_id d)]> (model_dump product)])%list
    /\ issued d' = S (issued d)
    /\ (forall name, name <> "product" -> collection d' name = collection d name).
Proof.
  intros Hdb Hf.
  destruct (insert_one_effect (model_dump product) w d Hdb Hf)
    as (d' & Hrun & Hcoll & Hnext & _ & _ & _ & Hothers).
  exists d'. rewrite (create_product_connected product w d Hdb), Hrun. auto.
Qed.

Lemma create_product_appends_witness :
  exists d',
    create_product minimal_product (connected one_product_store) =
      (Return "000000000000000000000001",
       {| db := Some d'; environ := ∅;
          calls := [InsertOne "product" (model_dump minimal_product)] |})
    /\ length (collection d' "product") = 2%nat.
Proof.
  destruct (create_product_appends minimal_product (connected one_product_store)
              one_product_store eq_refl eq_refl) as (d' & Hrun & Hcoll & _).
  exists d'. split; [exact Hrun|]. rewrite Hcoll, length_app. reflexivity.
Defined.

Lemma matches_FId_true (d : Database) (oid : ObjectId) (record : dict) :
  has_id oid record -> matches d (FId oid) record = true.
Proof.
  unfold has_id. intros H. simpl. rewrite H. apply bool_decide_eq_true. reflexivity.
Qed.

Lemma filter_FId_first (d : Database) (oid : ObjectId) (before after : list dict)
    (record : dict) :
  Forall (fun r => ~ has_id oid r) before ->
  has_id oid record ->
  head (List.filter (matches d (FId oid)) (before ++ record :: after)) = Some record.
Proof.
  intros Hb Hr. rewrite List.filter_app, (filter_FId_none d oid before Hb).
  cbn [List.filter app]. rewrite (matches_FId_true d oid record Hr). reflexivity.
Qed.

Lemma has_id_size (oid : ObjectId) (record : dict) :
  has_id oid record -> Nat.eqb (size record) 0 = false.
Proof.
  intros H. apply Nat.eqb_neq. intros Hz. apply size_zero_empty in Hz. subst record.
  unfold has_id in H. rewrite lookup_empty in H. discriminate.
Qed.

Lemma get_product_first_match (product_id : string) (w : World) (d : Database)
    (oid : ObjectId) (before after : list dict) (record : dict) :
  db w = Some d -> fault d = None ->
  ObjectId_of_str product_id = Some oid ->
  collection d "product" = (before ++ record :: after)%list ->
  Forall (fun r => ~ has_id oid r) before ->
  has_id oid record ->
  get_product product_id w =
    (Return (delete "_id" (<["id" := VStr (ObjectId_str oid)]> record)),
     {| db := Some d; environ := environ w;
        calls := (calls w ++ [FindOne "product" (FId oid)])%list |}).
Proof.
  intros Hdb Hf Hok Hcoll Hb Hr.
  rewrite (get_product_connected product_id w d Hdb), Hok.
  unfold find_one. rewrite (driver_answers _ _ w d Hdb Hf). simpl.
  rewrite Hcoll, (filter_FId_first d oid before after record Hb Hr).
  rewrite (has_id_size oid record Hr).
  rewrite serialize_reshaped, (reshaped_native_id record oid Hr). reflexivity.
Qed.

(** X4: [get_product] finds what is stored.  For a well-formed id that
    a record of a working store carries, the answer is the first such
    record in wire shape: without [_id], with [id] the canonical string
    of the identifier (lower-case, whatever the case of the request),
    and with every other field as stored. *)
Theorem get_product_found (product_id : string) (w : World) (d : Database)
    (oid : ObjectId) (before after : list dict) (record : dict) :
  db w = Some d -> fault d = None ->
  ObjectId_of_str product_id = Some oid ->
  collection d "product" = (before ++ record :: after)%list ->
  Forall (fun r => ~ has_id oid r) before ->
  has_id oid record ->
  exists out,
    (get_product product_id w).1 = Return out
    /\ out !! "_id" = None
    /\ out !! "id" = Some (VStr (ObjectId_str oid))
    /\ (forall key, key <> "_id" -> key <> "id" -> out !! key = record !! key).
Proof.
  intros Hdb Hf Hok Hcoll Hb Hr.
  rewrite (get_product_first_match product_id w d oid before after record
             Hdb Hf Hok Hcoll Hb Hr).
  eexists. split; [reflexivity|]. split; [apply lookup_delete_eq|]. split.
  - rewrite lookup_delete_ne by done. apply lookup_insert_eq.
  - intros key H1 H2. rewrite lookup_delete_ne by done.
    rewrite lookup_insert_ne by done. reflexivity.
Qed.

Lemma get_product_found_witness :
  exists out,
    (get_product "0000000000000000000000FF" (connected two_product_store)).1 = Return out
    /\ out !! "_id" = None
    /\ out !! "id" = Some (VStr "0000000000000000000000ff")
    /\ out !! "title" = Some (VStr "Y").
Proof.
  destruct (get_product_found "0000000000000000000000FF" (connected two_product_store)
              two_product_store (example_id 255)
              [ <["_id" := VObjectId (example_id 0)]> ({["title" := VStr "X"]} : dict) ]
              []
              (<["_id" := VObjectId (example_id 255)]> ({["title" := VStr "Y"]} : dict)))
    as (out & Hrun & Hgone & Hid & Hkeep).
  - reflexivity.
  - reflexivity.
  - reflexivity.
  - reflexivity.
  - constructor; [|constructor]. unfold has_id. rewrite lookup_insert_eq.
    intros H. discriminate.
  - apply lookup_insert_eq.
  - exists out. repeat split; try assumption.
    rewrite (Hkeep "title") by done.
    rewrite lookup_insert_ne by done. apply lookup_singleton_eq.
Defined.

Lemma wire_of_stored (data : dict) (oid : ObjectId) :
  data !! "_id" = None ->
  delete "_id" (<["id" := VStr (ObjectId_str oid)]> (<["_id" := VObjectId oid]> data))
  = <["id" := VStr (ObjectId_str oid)]> data.
Proof.
  intros Hnone. apply map_eq. intros key.
  destruct (decide (key = "_id")) as [->|Hk].
  - rewrite lookup_delete_eq. rewrite lookup_insert_ne by done. symmetry. exact Hnone.
  - rewrite lookup_delete_ne by done.
    destruct (decide (key = "id")) as [->|Hk'].
    + rewrite !lookup_insert_eq. reflexivity.
    + rewrite !lookup_insert_ne by done. reflexivity.
Qed.

(** X5: create, then look up.  On a working store whose next identifier
    has twelve bytes and is carried by no record yet, the id string
    [create_product] returns is one [get_product] accepts, and looking
    it up returns the dump of the product with the field [id] added,
    holding that same string. *)
Theorem create_product_then_get_product (product : ProductIn) (w : World) (d : Database) :
  db w = Some d -> fault d = None ->
  length (oid_binary (next_id d)) = 12%nat ->
  Forall (fun r => ~ has_id (next_id d) r) (collection d "product") ->
  exists new_id w1,
    create_product product w = (Return new_id, w1)
    /\ (get_product new_id w1).1 = Return (<["id" := VStr new_id]> (model_dump product)).
Proof.
  intros Hdb Hf Hbound Hfresh.
  destruct (insert_one_effect (model_dump product) w d Hdb Hf)
    as (d' & Hrun & Hcoll & _ & _ & Hf' & _ & _).
  eexists. eexists. split.
  - rewrite (create_product_connected product w d Hdb), Hrun. reflexivity.
  - rewrite (get_product_first_match _
               {| db := Some d'; environ := environ w;
                  calls := (calls w ++ [InsertOne "product" (model_dump product)])%list |}
               d' (next_id d)
               (collection d "product") []
               (<["_id" := VObjectId (next_id d)]> (model_dump product))
               eq_refl Hf' (ObjectId_of_str_str (next_id d) Hbound) Hcoll Hfresh
               (lookup_insert_eq _ _ _)).
    simpl. rewrite wire_of_stored by apply model_dump_no_reserved_key. reflexivity.
Qed.

Lemma create_product_then_get_product_witness :
  exists new_id w1,
    create_product minimal_product (connected one_product_store) = (Return new_id, w1)
    /\ (get_product new_id w1).1 =
         Return (<["id" := VStr new_id]> (model_dump minimal_product)).
Proof.
  apply (create_product_then_get_product minimal_product (connected one_product_store)
           one_product_store eq_refl eq_refl).
  - reflexivity.
  - change (collection one_product_store "product")
      with [ <["_id" := VObjectId (example_id 0)]> ({["title" := VStr "X"]} : dict) ].
    constructor; [|constructor]. unfold has_id. rewrite lookup_insert_eq.
    intros H. discriminate.
Defined.

(** ** Reading handlers and store failures *)

Lemma driver_reads {A} (call : StoreCall) (op : Database -> A * Database) (w : World) :
  (forall d, (op d).2 = d) ->
  db (driver call op w).2 = db w /\ environ (driver call op w).2 = environ w.
Proof.
  intros Hop. unfold driver. destruct (db w) as [d|] eqn:Hdb; [|auto].
  destruct (fault d); [auto|].
  pose proof (Hop d) as Hd. destruct (op d) as [a d']. simpl in *. subst. auto.
Qed.

Lemma driver_fails {A} (call : StoreCall) (op : Database -> A * Database)
    (w : World) (d : Database) (message : string) :
  db w = Some d -> fault d = Some message ->
  driver call op w =
    (Raise (Exception message),
     {| db := Some d; environ := environ w; calls := (calls w ++ [call])%list |}).
Proof. intros Hdb Hf. unfold driver. rewrite Hdb, Hf. reflexivity. Qed.

(** X6: the reading handlers never write: whatever the state of the
    store and whatever the arguments, [list_products] and [get_product]
    leave the store (every collection, the identifiers to come) and the
    environment exactly as they were. *)
Theorem reading_handlers_keep_store
    (limit : Z) (q : option string) (product_id : string) (w : World) :
  (db (list_products limit q w).2 = db w
   /\ environ (list_products limit q w).2 = environ w)
  /\ (db (get_product product_id w).2 = db w
      /\ environ (get_product product_id w).2 = environ w).
Proof.
  assert (Hcase : (exists d, db w = Some d) \/ db w = None)
    by (destruct (db w); eauto).
  destruct Hcase as [[d Hdb] | Hdb].
  - split.
    + rewrite (list_products_connected limit q w d Hdb).
      unfold get_documents, find_many.
      match goal with
      | |- context [driver ?c ?op w] =>
          destruct (driver_reads c op w (fun _ => eq_refl)) as [H1 H2];
          destruct (driver c op w) as [[docs|e] w']
      end; simpl in *; auto.
    + rewrite (get_product_connected product_id w d Hdb).
      destruct (ObjectId_of_str product_id) as [oid|]; [|simpl; auto].
      unfold find_one.
      match goal with
      | |- context [driver ?c ?op w] =>
          destruct (driver_reads c op w (fun _ => eq_refl)) as [H1 H2];
          destruct (driver c op w) as [[[doc|]|e] w']
      end; simpl in *; auto.
      destruct (Nat.eqb (size doc) 0); simpl; auto.
  - split.
    + assert (E : list_products limit q w =
                  (Raise (HTTPException 500 "Database not available"), w))
        by (unfold list_products; stop_at_guard Hdb).
      rewrite E. simpl. auto.
    + rewrite (get_product_offline product_id w Hdb). simpl. auto.
Qed.

(** X7: the handlers do not catch what the store raises.  On a store
    whose connection is broken each catalog handler stops at its first
    store operation with the store's own exception, not with an
    [HTTPException]; this holds for [get_product] too, whose [try]
    covers the reading of the id only, so that a well-formed id gives the
    store's exception and not the 400 of a malformed one. *)
Theorem handlers_propagate_store_failure (w : World) (d : Database) (message : string) :
  db w = Some d -> fault d = Some message ->
  (forall limit q,
     list_products limit q w =
       (Raise (Exception message),
        {| db := Some d; environ := environ w;
           calls := (calls w
                       ++ [Find "product" (build_filter q) (effective_limit limit)])%list |}))
  /\ (forall product,
        create_product product w =
          (Raise (Exception message),
           {| db := Some d; environ := environ w;
              calls := (calls w ++ [InsertOne "product" (model_dump product)])%list |}))
  /\ (forall product_id oid,
        ObjectId_of_str product_id = Some oid ->
        get_product product_id w =
          (Raise (Exception message),
           {| db := Some d; environ := environ w;
              calls := (calls w ++ [FindOne "product" (FId oid)])%list |}))
  /\ seed_products w =
       (Raise (Exception message),
        {| db := Some d; environ := environ w;
           calls := (calls w ++ [CountDocuments "product" FEmpty])%list |}).
Proof.
  intros Hdb Hf. repeat split.
  - intros limit q. rewrite (list_products_connected limit q w d Hdb).
    unfold get_documents, find_many. rewrite (driver_fails _ _ w d message Hdb Hf).
    reflexivity.
  - intros product. rewrite (create_product_connected product w d Hdb).
    unfold insert_one. rewrite (driver_fails _ _ w d message Hdb Hf). reflexivity.
  - intros product_id oid Hok. rewrite (get_product_connected product_id w d Hdb), Hok.
    unfold find_one. rewrite (driver_fails _ _ w d message Hdb Hf). reflexivity.
  - rewrite (seed_products_connected w d Hdb).
    unfold count_documents. rewrite (driver_fails _ _ w d message Hdb Hf). reflexivity.
Qed.

Lemma handlers_propagate_store_failure_witness :
  (list_products 50 None (connected broken_store)).1 =
    Raise (Exception "connection refused")
  /\ (get_product "0000000000000000000000ff" (connected broken_store)).1 =
       Raise (Exception "connection refused")
  /\ (seed_products (connected broken_store)).1 = Raise (Exception "connection refused").
Proof.
  destruct (handlers_propagate_store_failure (connected broken_store) broken_store
              "connection refused" eq_refl eq_refl) as (Hlist & _ & Hget & Hseed).
  split; [rewrite Hlist; reflexivity|].
  split; [rewrite (Hget _ _ an_id_of_24_digits); reflexivity|].
  rewrite Hseed. reflexivity.
Defined.

Lemma Forall_List_filter {A} (P : A -> Prop) (f : A -> bool) (l : list A) :
  Forall P l -> Forall P (List.filter f l).
Proof.
  induction 1 as [|x l Hx _ IH]; simpl; [constructor|].
  destruct (f x); [constructor; assumption | assumption].
Qed.

Lemma reshaped_wire_shaped (record : dict) :
  carries_native_id record -> wire_shaped (reshaped record).
Proof.
  intros [oid Hid]. rewrite (reshaped_native_id record oid Hid). split.
  - apply lookup_delete_eq.
  - exists (ObjectId_str oid). rewrite lookup_delete_ne by done.
    apply lookup_insert_eq.
Qed.

(** X8: when every record of the collection carries a native id (as
    every record the store inserted does), every record [list_products]
    returns is in wire shape: no [_id], and a string under [id]. *)
Theorem list_products_wire_shaped
    (limit : Z) (q : option string) (w : World) (d : Database) (docs : list dict) :
  db w = Some d ->
  Forall carries_native_id (collection d "product") ->
  (list_products limit q w).1 = Return docs ->
  Forall wire_shaped docs.
Proof.
  intros Hdb Hall Hret.
  rewrite (list_products_connected limit q w d Hdb) in Hret.
  unfold get_documents, find_many, driver in Hret. rewrite Hdb in Hret.
  destruct (fault d); [discriminate|]. simpl in Hret. inversion Hret. subst docs.
  apply Forall_fmap. apply Forall_take.
  apply Forall_List_filter.
  eapply Forall_impl; [exact Hall|].
  intros r Hr. simpl. rewrite serialize_reshaped. apply reshaped_wire_shaped. exact Hr.
Qed.

Lemma list_products_wire_shaped_witness :
  exists docs,
    (list_products 50 None (connected two_product_store)).1 = Return docs
    /\ length docs = 2%nat
    /\ Forall wire_shaped docs.
Proof.
  eexists. split; [reflexivity|]. split; [reflexivity|].
  apply (list_products_wire_shaped 50 None (connected two_product_store)
           two_product_store); [reflexivity| |reflexivity].
  change (collection two_product_store "product")
    with [ <["_id" := VObjectId (example_id 0)]> ({["title" := VStr "X"]} : dict);
           <["_id" := VObjectId (example_id 255)]> ({["title" := VStr "Y"]} : dict) ].
  constructor; [|constructor; [|constructor]].
  - exists (example_id 0). apply lookup_insert_eq.
  - exists (example_id 255). apply lookup_insert_eq.
Defined.

(** ** Seeding: what is stored, and seeding again *)

Lemma create_each_effect (items : list dict) (w : World) (d : Database) :
  db w = Some d -> fault d = None ->
  exists d',
    create_each items w =
      (Return tt,
       {| db := Some d'; environ := environ w;
          calls := (calls w ++ (InsertOne "product" <$> items))%list |})
    /\ collection d' "product" =
         (collection d "product" ++ with_ids (oid_source d) (issued d) items)%list
    /\ fault d' = None.
Proof.
  revert w d. induction items as [|s rest IH]; intros w d Hdb Hf.
  - exists d. simpl. rewrite !app_nil_r.
    split; [|auto]. unfold mret, App_ret. destruct w; simpl in *. by subst.
  - destruct (insert_one_effect s w d Hdb Hf)
      as (d1 & Hrun1 & Hc1 & Hn1 & Hs1 & Hf1 & _ & _).
    destruct (IH {| db := Some d1; environ := environ w;
                    calls := (calls w ++ [InsertOne "product" s])%list |}
                 d1 eq_refl Hf1) as (d' & Hrun & Hc & Hf').
    exists d'. split; [|split; [|exact Hf']].
    + simpl. unfold create_document, mbind, App_bind. rewrite Hrun1.
      unfold mret, App_ret. fold (create_each rest). rewrite Hrun. simpl.
      rewrite <- app_assoc. reflexivity.
    + rewrite Hc, Hc1, Hn1, Hs1, <- app_assoc. reflexivity.
Qed.

Lemma seed_products_populated (w : World) (d : Database) :
  db w = Some d -> fault d = None -> collection d "product" <> [] ->
  seed_products w =
    (Return (<["status" := VStr "ok"]>
            (<["message" := VStr "Products already exist"]>
            (<["count" := VInt (Z.of_nat (length (collection d "product")))]> ∅))),
     {| db := Some d; environ := environ w;
        calls := (calls w ++ [CountDocuments "product" FEmpty])%list |}).
Proof.
  intros Hdb Hf Hne. rewrite (seed_products_connected w d Hdb).
  rewrite (count_documents_all w d Hdb Hf).
  destruct (collection d "product") as [|r l] eqn:E; [contradiction|].
  replace (Z.of_nat (length (r :: l)) >? 0) with true; [reflexivity|].
  symmetry. apply Z.gtb_lt. simpl length. lia.
Qed.

Lemma seed_products_fills (w : World) (d : Database) :
  db w = Some d -> fault d = None -> collection d "product" = [] ->
  exists d',
    seed_products w =
      (Return (<["status" := VStr "ok"]>
              (<["inserted" := VInt (Z.of_nat (length samples))]>
              (<["count" := VInt (Z.of_nat (length samples))]> ∅))),
       {| db := Some d'; environ := environ w;
          calls := (calls w ++ [CountDocuments "product" FEmpty]
                      ++ (InsertOne "product" <$> samples)
                      ++ [CountDocuments "product" FEmpty])%list |})
    /\ collection d' "product" = with_ids (oid_source d) (issued d) samples
    /\ fault d' = None.
Proof.
  intros Hdb Hf Hempty. rewrite (seed_products_connected w d Hdb).
  rewrite (count_documents_all w d Hdb Hf). rewrite Hempty.
  simpl length. simpl (_ >? _). cbv iota.
  destruct (create_each_effect samples
    {| db := Some d; environ := environ w;
       calls := (calls w ++ [CountDocuments "product" FEmpty])%list |}
    d eq_refl Hf) as (d' & Hrun & Hcoll & Hf').
  rewrite Hempty in Hcoll. rewrite app_nil_l in Hcoll.
  exists d'. split; [|split; [exact Hcoll|exact Hf']].
  rewrite Hrun. cbn [environ calls].
  erewrite (count_documents_all _ d'); [|reflexivity|exact Hf'].
  rewrite Hcoll. cbn [environ calls].
  rewrite <- !app_assoc. reflexivity.
Qed.

Lemma with_ids_length (source : nat -> ObjectId) (n : nat) (items : list dict) :
  length (with_ids source n items) = length items.
Proof.
  revert n. induction items as [|s rest IH]; intros n; simpl; [reflexivity|].
  rewrite IH. reflexivity.
Qed.

(** X9: seeding is idempotent on a working store.  After
    [seed_products] has returned, the collection is not empty, so a
    second [seed_products] performs no insert, leaves the store as the
    first call left it, and reports the number of records found there. *)
Theorem seed_products_again (w : World) (d : Database) :
  db w = Some d -> fault d = None ->
  exists r1 w1 d1,
    seed_products w = (Return r1, w1)
    /\ db w1 = Some d1
    /\ collection d1 "product" <> []
    /\ seed_products w1 =
         (Return (<["status" := VStr "ok"]>
                 (<["message" := VStr "Products already exist"]>
                 (<["count" := VInt (Z.of_nat (length (collection d1 "product")))]> ∅))),
          {| db := Some d1; environ := environ w1;
             calls := (calls w1 ++ [CountDocuments "product" FEmpty])%list |}).
Proof.
  intros Hdb Hf.
  assert (Hcase : collection d "product" = [] \/ collection d "product" <> [])
    by (destruct (collection d "product"); [left; reflexivity | right; discriminate]).
  destruct Hcase as [Hempty | Hne].
  - destruct (seed_products_fills w d Hdb Hf Hempty) as (d' & Hrun & Hcoll & Hf').
    assert (Hne' : collection d' "product" <> []).
    { rewrite Hcoll. discriminate. }
    eexists. eexists. exists d'. split; [exact Hrun|]. split; [reflexivity|].
    split; [exact Hne'|].
    apply (seed_products_populated _ d'); [reflexivity | exact Hf' | exact Hne'].
  - eexists. eexists. exists d.
    split; [exact (seed_products_populated w d Hdb Hf Hne)|].
    split; [reflexivity|]. split; [exact Hne|].
    apply (seed_products_populated _ d); [reflexivity | exact Hf | exact Hne].
Qed.

Lemma seed_products_again_witness :
  exists r1 w1 d1,
    seed_products (connected empty_store) = (Return r1, w1)
    /\ db w1 = Some d1
    /\ collection d1 "product" <> []
    /\ (seed_products w1).1 =
         Return (<["status" := VStr "ok"]>
                (<["message" := VStr "Products already exist"]>
                (<["count" := VInt (Z.of_nat (length (collection d1 "product")))]> ∅))).
Proof.
  destruct (seed_products_again (connected empty_store) empty_store eq_refl eq_refl)
    as (r1 & w1 & d1 & Hrun & Hdb & Hne & Hagain).
  exists r1, w1, d1. rewrite Hagain. auto.
Defined.

Lemma with_ids_zip (source : nat -> ObjectId) (n : nat) (items : list dict) :
  with_ids source n items =
    zip_with (fun oid s => <["_id" := VObjectId oid]> s)
      (source <$> seq n (length items)) items.
Proof.
  revert n. induction items as [|s rest IH]; intros n; simpl; [reflexivity|].
  rewrite IH. reflexivity.
Qed.

(** X10: on a working store with an empty collection [seed_products]
    stores the samples and nothing else: the collection then holds one
    record for every sample, in the order of the source, each with the
    fields of its sample and, under [_id], an identifier the store
    assigned. *)
Theorem seed_products_stores_samples (w : World) (d : Database) :
  db w = Some d -> fault d = None -> collection d "product" = [] ->
  exists d' ids,
    db (seed_products w).2 = Some d'
    /\ length ids = length samples
    /\ collection d' "product" =
         zip_with (fun oid s => <["_id" := VObjectId oid]> s) ids samples.
Proof.
  intros Hdb Hf Hempty.
  destruct (seed_products_fills w d Hdb Hf Hempty) as (d' & Hrun & Hcoll & _).
  exists d', (oid_source d <$> seq (issued d) (length samples)).
  rewrite Hrun. split; [reflexivity|]. split.
  - rewrite length_fmap, length_seq. reflexivity.
  - rewrite Hcoll. apply with_ids_zip.
Qed.

Lemma seed_products_stores_samples_witness :
  exists d' (ids : list ObjectId),
    db (seed_products (connected empty_store)).2 = Some d'
    /\ length ids = 3%nat
    /\ length (collection d' "product") = 3%nat.
Proof.
  destruct (seed_products_stores_samples (connected empty_store) empty_store
              eq_refl eq_refl eq_refl) as (d' & ids & Hdb & Hlen & Hcoll).
  exists d', ids. split; [exact Hdb|]. split; [exact Hlen|].
  rewrite Hcoll, length_zip_with, Hlen. reflexivity.
Defined.

Lemma reshaped_stored_title (s : dict) (oid : ObjectId) :
  reshaped (<["_id" := VObjectId oid]> s) !! "title" = s !! "title".
Proof.
  rewrite (reshaped_native_id _ oid) by apply lookup_insert_eq.
  rewrite lookup_delete_ne by done. rewrite !lookup_insert_ne by done. reflexivity.
Qed.

(** X11: seed, then list.  After [seed_products] on a working store
    with an empty collection, [list_products] with no filter and a limit
    of at least three returns the three samples in the order of the
    source, each in wire shape. *)
Theorem seed_products_then_list_products (limit : Z) (w : World) (d : Database) :
  db w = Some d -> fault d = None -> collection d "product" = [] ->
  3 <= limit ->
  exists docs,
    (list_products limit None (seed_products w).2).1 = Return docs
    /\ (fun r : dict => r !! "title") <$> docs =
         [ Some (VStr "Citrus Bloom Eau de Parfum");
           Some (VStr "Amber Leaf Elixir");
           Some (VStr "Verdant Whisper") ]
    /\ Forall wire_shaped docs.
Proof.
  intros Hdb Hf Hempty Hlimit.
  destruct (seed_products_fills w d Hdb Hf Hempty) as (d' & Hrun & Hcoll & Hf').
  rewrite Hrun. cbn [snd].
  eexists. split.
  - erewrite (list_products_healthy limit None _ d'); [reflexivity|reflexivity|exact Hf'].
  - cbn [build_filter]. rewrite filter_FEmpty, Hcoll.
    rewrite take_ge by (rewrite with_ids_length; unfold effective_limit; simpl; lia).
    split.
    + cbn [with_ids samples fmap list_fmap]. rewrite !serialize_reshaped.
      rewrite !reshaped_stored_title. vm_compute. reflexivity.
    + apply Forall_fmap. cbn [with_ids samples].
      repeat constructor; simpl; rewrite serialize_reshaped;
        apply reshaped_wire_shaped; eexists; apply lookup_insert_eq.
Qed.

Lemma seed_products_then_list_products_witness :
  exists docs,
    (list_products 50 None (seed_products (connected empty_store)).2).1 = Return docs
    /\ length docs = 3%nat.
Proof.
  destruct (seed_products_then_list_products 50 (connected empty_store) empty_store
              eq_refl eq_refl eq_refl) as (docs & Hrun & Htitles & _); [lia|].
  exists docs. split; [exact Hrun|].
  pose proof (f_equal length Htitles) as Hlen.
  rewrite length_fmap in Hlen. exact Hlen.
Defined.

(** ** The diagnostic endpoint *)

(** The response with the handle present, before the store is called. *)
Lemma test_database_working (w : World) (d : Database) :
  db w = Some d -> fault d = None ->
  exists url name,
    test_database w =
      (Return (<["connection_status" := VStr "Connected"]>
              (<["database" := VStr "✅ Connected & Working"]>
              (<["collections" :=
                   VList (VStr <$> take 10 (map_to_list (collections d)).*1)]>
              (<["database_name" := VStr name]>
              (<["database_url" := VStr url]>
              (<["database" := VStr "✅ Available"]> initial_response)))))),
       {| db := Some d; environ := environ w;
          calls := (calls w ++ [ListCollectionNames])%list |}).
Proof.
  intros Hdb Hf. eexists. eexists.
  unfold test_database, try_block, call_then, then_, assign.
  rewrite (db_is_None_connected w d Hdb). simpl.
  unfold list_collection_names. rewrite (driver_answers _ _ w d Hdb Hf).
  reflexivity.
Qed.

Lemma test_database_failing (w : World) (d : Database) (message : string) :
  db w = Some d -> fault d = Some message ->
  exists url name,
    test_database w =
      (Return (<["database" :=
                   VStr ("⚠️ Connected but Error: " ++ str_prefix 80 message)]>
              (<["database_name" := VStr name]>
              (<["database_url" := VStr url]>
              (<["database" := VStr "✅ Available"]> initial_response)))),
       {| db := Some d; environ := environ w;
          calls := (calls w ++ [ListCollectionNames])%list |}).
Proof.
  intros Hdb Hf. eexists. eexists.
  unfold test_database, try_block, call_then, then_, assign.
  rewrite (db_is_None_connected w d Hdb). simpl.
  unfold list_collection_names. rewrite (driver_fails _ _ w d message Hdb Hf).
  reflexivity.
Qed.

(** The three states of the store handle. *)
Lemma handle_cases (w : World) :
  db w = None
  \/ (exists d, db w = Some d /\ fault d = None)
  \/ (exists d message, db w = Some d /\ fault d = Some message).
Proof.
  destruct (db w) as [d|]; [|auto]. right.
  destruct (fault d) as [message|] eqn:Hf; eauto.
Qed.

Lemma initial_response_keys : dom initial_response = response_keys.
Proof.
  unfold initial_response, response_keys.
  rewrite !dom_insert_L, dom_empty_L. apply set_eq. intros x. set_unfold. tauto.
Qed.

Lemma assign_keeps_keys (key : string) (v : value) (response : dict) :
  key ∈ response_keys -> dom response = response_keys ->
  dom (<[key := v]> response) = response_keys.
Proof.
  intros Hk Hd. rewrite dom_insert_L, Hd. apply set_eq. intros x.
  rewrite elem_of_union, elem_of_singleton. split; [intros [->|H]; assumption | auto].
Qed.

Ltac keys_kept :=
  repeat first
    [ apply initial_response_keys
    | apply assign_keeps_keys; [unfold response_keys; set_unfold; tauto|] ].

(** X12: whatever the state of the store, and whatever the store
    answers, the response of [test_database] has exactly the six keys it
    starts with, and reports the backend as running. *)
Theorem test_database_response_shape (w : World) :
  exists response,
    (test_database w).1 = Return response
    /\ dom response = response_keys
    /\ response !! "backend" = Some (VStr "✅ Running").
Proof.
  destruct (handle_cases w) as [Hdb | [(d & Hdb & Hf) | (d & message & Hdb & Hf)]].
  - rewrite (test_database_offline w Hdb). eexists. split; [reflexivity|].
    split; [keys_kept|].
    rewrite lookup_insert_ne by done. apply lookup_insert_eq.
  - destruct (test_database_working w d Hdb Hf) as (url & name & ->).
    eexists. split; [reflexivity|]. split; [keys_kept|].
    rewrite !lookup_insert_ne by done. apply lookup_insert_eq.
  - destruct (test_database_failing w d message Hdb Hf) as (url & name & ->).
    eexists. split; [reflexivity|]. split; [keys_kept|].
    rewrite !lookup_insert_ne by done. apply lookup_insert_eq.
Qed.

(** X13: [test_database] reports the connection as "Connected" exactly
    when the handle is present and the store answered the listing of its
    collections; and the response never lists more than ten collection
    names. *)
Theorem test_database_connection_status (w : World) :
  exists response,
    (test_database w).1 = Return response
    /\ (response !! "connection_status" = Some (VStr "Connected")
        <-> exists d, db w = Some d /\ fault d = None)
    /\ exists names,
         response !! "collections" = Some (VList (VStr <$> names))
         /\ (length names <= 10)%nat.
Proof.
  destruct (handle_cases w) as [Hdb | [(d & Hdb & Hf) | (d & message & Hdb & Hf)]].
  - rewrite (test_database_offline w Hdb). eexists. split; [reflexivity|]. split.
    + unfold initial_response. rewrite !lookup_insert_ne by done.
      rewrite lookup_insert_eq. split; [discriminate|].
      intros (d & Hd & _). congruence.
    + exists []. unfold initial_response. rewrite !lookup_insert_ne by done.
      rewrite lookup_insert_eq. split; [reflexivity | simpl; lia].
  - destruct (test_database_working w d Hdb Hf) as (url & name & ->).
    eexists. split; [reflexivity|]. split.
    + rewrite lookup_insert_eq. split; [eauto | reflexivity].
    + eexists. rewrite !lookup_insert_ne by done. rewrite lookup_insert_eq.
      split; [reflexivity|]. rewrite length_take. lia.
  - destruct (test_database_failing w d message Hdb Hf) as (url & name & ->).
    eexists. split; [reflexivity|]. split.
    + unfold initial_response. rewrite !lookup_insert_ne by done.
      rewrite lookup_insert_eq. split; [discriminate|].
      intros (d' & Hd & Hf'). congruence.
    + exists []. unfold initial_response. rewrite !lookup_insert_ne by done.
      rewrite lookup_insert_eq. split; [reflexivity | simpl; lia].
Qed.

Lemma str_prefix_len (n : nat) (text : string) :
  str_len (str_prefix n text) = Nat.min n (str_len text).
Proof.
  revert n. induction text as [|c rest IH]; intros n; simpl.
  - rewrite Nat.min_0_r. reflexivity.
  - destruct (is_continuation c) eqn:Hc; simpl.
    + rewrite Hc. apply IH.
    + destruct n as [|m]; simpl; [reflexivity|]. rewrite Hc, IH. reflexivity.
Qed.

(** A slice is the beginning of the text, and ends where a character
    ends. *)
Lemma str_prefix_split (n : nat) (text : string) :
  exists rest,
    text = str_prefix n text ++ rest
    /\ (forall c tail, rest = String c tail -> is_continuation c = false).
Proof.
  revert n. induction text as [|c rest IH]; intros n; simpl.
  - exists "". split; [reflexivity | discriminate].
  - destruct (is_continuation c) eqn:Hc.
    + destruct (IH n) as (tail & Heq & Hb). exists tail.
      split; [|exact Hb].
      change (String c rest = String c (str_prefix n rest ++ tail)).
      f_equal. exact Heq.
    + destruct n as [|m].
      * exists (String c rest). split; [reflexivity|].
        intros c' tail' H. inversion H. subst. exact Hc.
      * destruct (IH m) as (tail & Heq & Hb). exists tail.
        split; [|exact Hb].
        change (String c rest = String c (str_prefix m rest ++ tail)).
        f_equal. exact Heq.
Qed.

Lemma str_prefix_all (n : nat) (text : string) :
  (str_len text <= n)%nat -> str_prefix n text = text.
Proof.
  revert n. induction text as [|c rest IH]; intros n Hlen; simpl in *; [reflexivity|].
  destruct (is_continuation c).
  - rewrite IH by exact Hlen. reflexivity.
  - destruct n as [|m]; [lia|]. rewrite IH by lia. reflexivity.
Qed.

(** X14: when the store fails the listing of its collections,
    [test_database] reports, after the words "Connected but Error: ",
    the first 80 characters of the store's error text: the text in full
    when it has at most 80 characters, and otherwise exactly its first
    80 characters, whatever the number of bytes they take. *)
Theorem test_database_error_text (w : World) (d : Database) (message : string) :
  db w = Some d -> fault d = Some message ->
  exists response text rest,
    (test_database w).1 = Return response
    /\ response !! "database" = Some (VStr ("⚠️ Connected but Error: " ++ text))
    /\ message = text ++ rest
    /\ (forall c tail, rest = String c tail -> is_continuation c = false)
    /\ str_len text = Nat.min 80 (str_len message)
    /\ ((str_len message <= 80)%nat -> text = message).
Proof.
  intros Hdb Hf.
  destruct (test_database_failing w d message Hdb Hf) as (url & name & ->).
  destruct (str_prefix_split 80 message) as (rest & Heq & Hb).
  eexists. exists (str_prefix 80 message), rest. split; [reflexivity|].
  split; [apply lookup_insert_eq|].
  split; [exact Heq|]. split; [exact Hb|].
  split; [apply str_prefix_len | apply str_prefix_all].
Qed.

Lemma test_database_error_text_witness :
  exists response,
    (test_database (connected broken_store)).1 = Return response
    /\ response !! "database" =
         Some (VStr "⚠️ Connected but Error: connection refused").
Proof.
  destruct (test_database_error_text (connected broken_store) broken_store
              "connection refused" eq_refl eq_refl)
    as (response & text & rest & Hrun & Hbody & _ & _ & _ & Hfull).
  exists response. split; [exact Hrun|].
  rewrite Hbody, Hfull; [reflexivity | simpl; lia].
Defined.

(** X15: [test_database] only looks: it leaves the store and the
    environment as they were; without a handle it performs no store
    operation, and with a handle exactly one, the listing of the
    collection names. *)
Theorem test_database_only_looks (w : World) :
  db (test_database w).2 = db w
  /\ environ (test_database w).2 = environ w
  /\ (db w = None -> calls (test_database w).2 = calls w)
  /\ (forall d, db w = Some d ->
      calls (test_database w).2 = (calls w ++ [ListCollectionNames])%list).
Proof.
  destruct (handle_cases w) as [Hdb | [(d & Hdb & Hf) | (d & message & Hdb & Hf)]].
  - rewrite (test_database_offline w Hdb). simpl.
    repeat split; try reflexivity. intros d Hd. congruence.
  - destruct (test_database_working w d Hdb Hf) as (url & name & ->). simpl.
    repeat split; try (symmetry; assumption); try reflexivity. intros Hn. congruence.
  - destruct (test_database_failing w d message Hdb Hf) as (url & name & ->). simpl.
    repeat split; try (symmetry; assumption); try reflexivity. intros Hn. congruence.
Qed.

Lemma test_database_only_looks_witness :
  calls (test_database offline).2 = []
  /\ calls (test_database (connected one_product_store)).2 = [ListCollectionNames].
Proof.
  destruct (test_database_only_looks offline) as (_ & _ & Hoff & _).
  destruct (test_database_only_looks (connected one_product_store)) as (_ & _ & _ & Hon).
  split; [exact (Hoff eq_refl) | exact (Hon one_product_store eq_refl)].
Defined.
